(** * DistillLoss: the self-distillation loss of
    [util/train_module/self_distill.py]

    A shallow embedding of the class [DistillLoss] (its constructor
    [__init__] and its method [forward]) together with the few NumPy and
    PyTorch operations the class calls, followed by the properties of the
    loss that are established from the code.

    Numbers.  Python floats, NumPy float64 entries and tensor entries are
    idealised as real numbers ([R]): rounding, overflow, infinities and NaN
    are outside the model.  The statements about values therefore hold for
    exact arithmetic; what depends on the rounding or on the order of
    floating-point sums is not stated.  The properties below are about
    shapes, exceptions, the schedule, the terms the loops compute and add,
    and the autograd graph.  Python ints are [Z]; sizes and loop indices
    are [nat].

    Autograd.  A tensor carries the leaves of the autograd graph that
    [backward] would reach from it; derivatives are not modelled. *)

From Stdlib Require Import Reals Lra Lia ZArith List Bool Arith FinFun.
Import ListNotations.

Local Open Scope R_scope.

(** ** Exceptions and results *)

(** The Python exceptions the modelled code can raise. *)
Inductive exn : Type :=
| ValueError
| IndexError
| RuntimeError
| ZeroDivisionError.

Inductive result (A : Type) : Type :=
| Ok (a : A)
| Raise (e : exn).

Arguments Ok {A} a.
Arguments Raise {A} e.

Definition bind {A B : Type} (m : result A) (k : A -> result B) : result B :=
  match m with
  | Ok a => k a
  | Raise e => Raise e
  end.

Notation "x <- m ;; k" := (bind m (fun x => k))
  (at level 61, m at next level, right associativity).

(** Sum of a list of reals. *)
Definition rsum (l : list R) : R := fold_right Rplus 0 l.

Arguments rsum : simpl never.

(** ** NumPy *)

Module Np.

(** [y[-1] = v]; it is only run on a non-empty one-dimensional array. *)
Fixpoint set_last (y : list R) (v : R) : list R :=
  match y with
  | [] => []
  | [_] => [v]
  | x :: y' => x :: set_last y' v
  end.

(** [np.linspace(start, stop, num)] with the default [endpoint=True]:
    [num < 0] raises [ValueError]; otherwise [arange(0, num)] is scaled by
    the step [delta / div] with [div = num - 1] (through [y / div * delta]
    when the step is zero, by [delta] alone when [div <= 0]), shifted by
    [start], and for [num > 1] the last entry is overwritten by [stop]. *)
Definition linspace (start stop : R) (num : Z) : result (list R) :=
  if (num <? 0)%Z then Raise ValueError
  else
    let div := (num - 1)%Z in
    let delta := stop - start in
    let y := map INR (seq 0 (Z.to_nat num)) in
    let y :=
      if (0 <? div)%Z then
        let step := delta / IZR div in
        if Req_dec_T step 0
        then map (fun v => v / IZR div * delta) y
        else map (fun v => v * step) y
      else map (fun v => v * delta) y in
    let y := map (fun v => v + start) y in
    Ok (if (1 <? num)%Z then set_last y stop else y).

(** [np.ones(shape)] for an integer shape: negative dimensions are
    rejected with [ValueError]. *)
Definition ones (shape : Z) : result (list R) :=
  if (shape <? 0)%Z then Raise ValueError
  else Ok (repeat 1 (Z.to_nat shape)).

(** [arr * x] for a one-dimensional array and a scalar. *)
Definition mul_scalar (arr : list R) (x : R) : list R :=
  map (fun v => v * x) arr.

(** [np.concatenate((a, b))] on one-dimensional arrays. *)
Definition concatenate (a b : list R) : list R := a ++ b.

(** [arr[k]] for a one-dimensional array and a Python int: an index in
    [-len, 0) counts from the end, an index outside [-len, len) raises
    [IndexError]. *)
Definition getitem (arr : list R) (k : Z) : result R :=
  let len := Z.of_nat (length arr) in
  if ((k <? - len) || (len <=? k))%Z then Raise IndexError
  else
    let k' := if (k <? 0)%Z then (k + len)%Z else k in
    match nth_error arr (Z.to_nat k') with
    | Some v => Ok v
    | None => Raise IndexError
    end.

End Np.

(** ** PyTorch *)

Module Torch.

(** A leaf of the autograd graph (a parameter or an input that requires
    gradients), named by a number. *)
Definition Leaf : Type := nat.

(** A two-dimensional tensor of shape [(nrows, ncols)]: its entries row by
    row, the size of its last axis (kept apart so that a tensor without
    rows still has a shape), and the leaves of the autograd graph that
    [backward] reaches from it (none: [requires_grad] is [False]). *)
Record Tensor : Type := mkTensor {
  ncols : nat;
  rows : list (list R);
  grad_leaves : list Leaf
}.

Definition nrows (t : Tensor) : nat := length (rows t).

(** Every row has [ncols] entries. *)
Definition wf (t : Tensor) : Prop :=
  Forall (fun r => length r = ncols t) (rows t).

(** A zero-dimensional tensor: the value [item()] returns and its
    autograd leaves. *)
Record Scalar : Type := mkScalar {
  item : R;
  scalar_leaves : list Leaf
}.

(** An operation applied to every row, recorded in the graph of its
    argument. *)
Definition map_rows (f : list R -> list R) (t : Tensor) : Tensor :=
  {| ncols := ncols t; rows := map f (rows t);
     grad_leaves := grad_leaves t |}.

(** [t / x] for a Python or NumPy float [x]. *)
Definition div_scalar (t : Tensor) (x : R) : Tensor :=
  map_rows (map (fun v => v / x)) t.

(** [t.narrow(0, start, length)]. *)
Definition narrow (t : Tensor) (start len : Z) : Tensor :=
  {| ncols := ncols t;
     rows := firstn (Z.to_nat len) (skipn (Z.to_nat start) (rows t));
     grad_leaves := grad_leaves t |}.

(** [t.split(split_size)] along axis 0: [num_splits] pieces of
    [split_size] rows, the last one holding what is left.  (The integer
    divisions are on non-negative operands.) *)
Definition split (t : Tensor) (split_size : Z) : result (list Tensor) :=
  let dim_size := Z.of_nat (nrows t) in
  if (split_size <? 0)%Z then Raise RuntimeError
  else if ((split_size =? 0) && negb (dim_size =? 0))%Z
  then Raise RuntimeError
  else
    let num_splits :=
      if (split_size =? 0)%Z then 1%Z
      else Z.max ((dim_size + split_size - 1) / split_size) 1 in
    let last_split_size :=
      (split_size - (split_size * num_splits - dim_size))%Z in
    Ok (map (fun i : nat =>
               let len :=
                 if (Z.of_nat i <? num_splits - 1)%Z
                 then split_size else last_split_size in
               narrow t (Z.of_nat i * split_size) len)
            (seq 0 (Z.to_nat num_splits))).

(** [t.chunk(chunks)] along axis 0: pieces of
    [ceil(dim_size / chunks)] rows; fewer than [chunks] pieces come back
    when the rows run out, and exactly [chunks] empty pieces when there is
    no row at all. *)
Definition chunk (t : Tensor) (chunks : Z) : result (list Tensor) :=
  if (chunks <=? 0)%Z then Raise RuntimeError
  else
    let dim_size := Z.of_nat (nrows t) in
    let split_size := ((dim_size + chunks - 1) / chunks)%Z in
    if ((split_size =? 0) && (dim_size =? 0))%Z
    then Ok (repeat (narrow t 0 0) (Z.to_nat chunks))
    else split t split_size.

(** [softmax] of one row: [exp(x_k) / sum_c exp(x_c)]. *)
Definition softmax_row (r : list R) : list R :=
  let d := rsum (map exp r) in
  map (fun x => exp x / d) r.

(** [log_softmax] of one row: [log(exp(x_k) / sum_c exp(x_c))]. *)
Definition log_softmax_row (r : list R) : list R :=
  let d := rsum (map exp r) in
  map (fun x => ln (exp x / d)) r.

(** [F.softmax(t, dim=-1)] and [F.log_softmax(t, dim=-1)]. *)
Definition softmax (t : Tensor) : Tensor := map_rows softmax_row t.
Definition log_softmax (t : Tensor) : Tensor := map_rows log_softmax_row t.

(** [t.detach()]: the same entries, cut from the autograd graph. *)
Definition detach (t : Tensor) : Tensor :=
  {| ncols := ncols t; rows := rows t; grad_leaves := [] |}.

(** [torch.xlogy(x, y)]: zero where [x] is zero, [x * log(y)] elsewhere. *)
Definition xlogy (x y : R) : R :=
  if Req_dec_T x 0 then 0 else x * ln y.

(** Broadcasting of one axis: equal sizes, or one of them is 1. *)
Definition broadcast_dim (a b : nat) : result nat :=
  if (a =? b)%nat then Ok a
  else if (a =? 1)%nat then Ok b
  else if (b =? 1)%nat then Ok a
  else Raise RuntimeError.

(** A list of length [n] or 1 expanded to length [n]. *)
Definition expand {A : Type} (d : A) (n : nat) (l : list A) : list A :=
  if (length l =? n)%nat then l else repeat (hd d l) n.

(** The entries of [t] expanded to the shape [(nr, nc)]. *)
Definition expand_as (t : Tensor) (nr nc : nat) : list (list R) :=
  expand [] nr (map (expand 0 nc) (rows t)).

Definition map2 {A B C : Type} (f : A -> B -> C)
  (la : list A) (lb : list B) : list C :=
  map (fun p => f (fst p) (snd p)) (combine la lb).

(** The pointwise Kullback-Leibler term for a target probability [t] and
    an input log-probability [i]: [xlogy(t, t) - t * i]. *)
Definition kl_pointwise (i t : R) : R := xlogy t t - t * i.

(** [F.kl_div(input, target, reduction='batchmean')] with the default
    [log_target=False]: the pointwise terms over the broadcast shape are
    summed and divided by [input.size(0)]. *)
Definition kl_div (input target : Tensor) : result Scalar :=
  nr <- broadcast_dim (nrows input) (nrows target) ;;
  nc <- broadcast_dim (ncols input) (ncols target) ;;
  let output :=
    map2 (map2 kl_pointwise)
         (expand_as input nr nc) (expand_as target nr nc) in
  let reduced := rsum (map rsum output) in
  Ok {| item := reduced / INR (nrows input);
        scalar_leaves := grad_leaves input ++ grad_leaves target |}.

(** [a + b] on zero-dimensional tensors. *)
Definition add (a b : Scalar) : Scalar :=
  {| item := item a + item b;
     scalar_leaves := scalar_leaves a ++ scalar_leaves b |}.

(** [tup[i]] on the tuple [chunk] returns. *)
Definition tuple_getitem (tup : list Tensor) (i : nat) : result Tensor :=
  match nth_error tup i with
  | Some t => Ok t
  | None => Raise IndexError
  end.

End Torch.

(** ** DistillLoss *)

Import Torch.

(** The attributes [__init__] sets. *)
Record DistillLoss : Type := mkDistillLoss {
  student_temp : R;
  n_crops : Z;
  teacher_temp_schedule : list R
}.

(** [DistillLoss.__init__]: the schedule is the linear ramp of
    [warmup_teacher_temp_epochs] entries followed by
    [n_epochs - warmup_teacher_temp_epochs] entries [1 * teacher_temp]. *)
Definition init (warmup_teacher_temp_epochs n_epochs n_crops : Z)
  (warmup_teacher_temp teacher_temp student_temp : R) : result DistillLoss :=
  ramp <- Np.linspace warmup_teacher_temp teacher_temp
            warmup_teacher_temp_epochs ;;
  tail <- Np.ones (n_epochs - warmup_teacher_temp_epochs) ;;
  Ok {| student_temp := student_temp;
        n_crops := n_crops;
        teacher_temp_schedule :=
          Np.concatenate ramp (Np.mul_scalar tail teacher_temp) |}.

(** The loop state of [forward]: [loss] and [n_terms] as in the code, and a
    ghost log [terms] of the pairs [(i, j)] for which a term was added,
    each with the value of that term. *)
Record Acc : Type := mkAcc {
  loss : Scalar;
  n_terms : Z;
  terms : list (nat * nat * R)
}.

(** [loss, n_terms = 0, 0]. *)
Definition acc0 : Acc :=
  {| loss := {| item := 0; scalar_leaves := [] |};
     n_terms := 0; terms := [] |}.

(** One iteration of the inner loop, for the crops [i] and [j]. *)
Definition loop_body (student_outs teacher_outs : list Tensor)
  (i j : nat) (acc : Acc) : result Acc :=
  if (i =? j)%nat then Ok acc
  else
    s_i <- tuple_getitem student_outs i ;;
    t_j <- tuple_getitem teacher_outs j ;;
    term <- kl_div (log_softmax s_i) t_j ;;
    Ok {| loss := add (loss acc) term;
          n_terms := n_terms acc + 1;
          terms := terms acc ++ [(i, j, item term)] |}.

(** [for j in range(n_crops): ...] *)
Definition inner_loop (student_outs teacher_outs : list Tensor)
  (n : nat) (i : nat) (acc : Acc) : result Acc :=
  fold_left
    (fun st j => acc <- st ;; loop_body student_outs teacher_outs i j acc)
    (seq 0 n) (Ok acc).

(** [for i in range(n_crops): for j in range(n_crops): ...] *)
Definition outer_loop (student_outs teacher_outs : list Tensor)
  (n : nat) (acc : Acc) : result Acc :=
  fold_left
    (fun st i => acc <- st ;; inner_loop student_outs teacher_outs n i acc)
    (seq 0 n) (Ok acc).

(** [forward] up to the end of the loops. *)
Definition forward_acc (self : DistillLoss)
  (student_outputs teacher_outputs : Tensor) (epoch : Z) : result Acc :=
  let student_outs := div_scalar student_outputs (student_temp self) in
  student_outs <- chunk student_outs (n_crops self) ;;
  temp <- Np.getitem (teacher_temp_schedule self) epoch ;;
  let teacher_outs := softmax (div_scalar teacher_outputs temp) in
  teacher_outs <- chunk (detach teacher_outs) (n_crops self) ;;
  outer_loop student_outs teacher_outs (Z.to_nat (n_crops self)) acc0.

(** [loss / n_terms]: while no term was added both are the Python int 0 and
    the division raises; afterwards [loss] is a tensor. *)
Definition true_div (l : Scalar) (n : Z) : result Scalar :=
  if (n =? 0)%Z then Raise ZeroDivisionError
  else Ok {| item := item l / IZR n; scalar_leaves := scalar_leaves l |}.

(** [DistillLoss.forward]. *)
Definition forward (self : DistillLoss)
  (student_outputs teacher_outputs : Tensor) (epoch : Z) : result Scalar :=
  acc <- forward_acc self student_outputs teacher_outputs epoch ;;
  true_div (loss acc) (n_terms acc).

(** ** Notions used in the statements *)

(** The rows [start, start + len) of a tensor. *)
Definition piece (t : Tensor) (start len : nat) : Tensor :=
  {| ncols := ncols t; rows := firstn len (skipn start (rows t));
     grad_leaves := grad_leaves t |}.

(** The batch mean [F.kl_div] computes on two blocks of one shape, [input]
    holding log-probabilities and [target] probabilities. *)
Definition kl_batchmean (input target : list (list R)) : R :=
  rsum (map rsum (map2 (map2 kl_pointwise) input target))
  / INR (length input).

(** The ordered pairs of distinct crops, in the order the loops visit
    them. *)
Definition crop_pairs (n : nat) : list (nat * nat) :=
  flat_map (fun i => map (pair i)
                         (filter (fun j => negb (i =? j)%nat) (seq 0 n)))
           (seq 0 n).

(** The loop state once the term of the pair [(i, j)] is added. *)
Definition add_term (term : nat -> nat -> Scalar) (acc : Acc)
  (p : nat * nat) : Acc :=
  {| loss := add (loss acc) (term (fst p) (snd p));
     n_terms := n_terms acc + 1;
     terms := terms acc ++ [(fst p, snd p, item (term (fst p) (snd p)))] |}.

(** Block [i] of the scaled student outputs and block [j] of the detached
    teacher probabilities, for blocks of [B] rows. *)
Definition student_block (self : DistillLoss) (s : Tensor) (B i : nat)
  : Tensor :=
  piece (div_scalar s (student_temp self)) (i * B) B.

Definition teacher_block (temp : R) (t : Tensor) (B j : nat) : Tensor :=
  piece (detach (softmax (div_scalar t temp))) (j * B) B.

(** The term of the pair [(i, j)] on blocks of [B] rows. *)
Definition pair_term (self : DistillLoss) (s t : Tensor) (temp : R)
  (B i j : nat) : Scalar :=
  {| item := kl_batchmean (rows (log_softmax (student_block self s B i)))
                          (rows (teacher_block temp t B j));
     scalar_leaves := grad_leaves s |}.

(** The shapes and the epoch of a call are as [forward] expects them: at
    least two crops, two well-formed tensors of [n_crops * B] rows and the
    same number of classes, and an epoch of the schedule. *)
Record valid_shapes (self : DistillLoss) (s t : Tensor) (epoch : Z)
  (B : nat) : Prop := {
  vs_crops : (2 <= n_crops self)%Z;
  vs_student_wf : wf s;
  vs_teacher_wf : wf t;
  vs_student_rows : nrows s = (Z.to_nat (n_crops self) * B)%nat;
  vs_teacher_rows : nrows t = (Z.to_nat (n_crops self) * B)%nat;
  vs_cols : ncols s = ncols t;
  vs_epoch : (0 <= epoch < Z.of_nat (length (teacher_temp_schedule self)))%Z
}.

(** The blocks [t.chunk(chunks)] cuts [nr >= 1] rows into: the number of
    rows of a full block, [ceil(nr / chunks)]; the number of blocks,
    [ceil(nr / chunk_size)]; and the number of rows left for the last
    block. *)
Definition chunk_size (nr : nat) (chunks : Z) : nat :=
  Z.to_nat ((Z.of_nat nr + chunks - 1) / chunks).

Definition chunk_count (nr : nat) (chunks : Z) : nat :=
  let c := Z.of_nat (chunk_size nr chunks) in
  Z.to_nat ((Z.of_nat nr + c - 1) / c).

Definition last_chunk_size (nr : nat) (chunks : Z) : nat :=
  (nr - (chunk_count nr chunks - 1) * chunk_size nr chunks)%nat.

(** Block [i] of these: full, or the last one. *)
Definition uneven_block (x : Tensor) (chunks : Z) (i : nat) : Tensor :=
  let c := chunk_size (nrows x) chunks in
  if (S i <? chunk_count (nrows x) chunks)%nat then piece x (i * c) c
  else piece x (i * c) (last_chunk_size (nrows x) chunks).

(** The term of a pair as the specification words it: the batch mean over
    the rows of [sum_over_classes(- teacherProbs * logStudent)]. *)
Definition cross_entropy_batchmean
  (log_student teacher_probs : list (list R)) : R :=
  rsum (map rsum (map2 (map2 (fun ls p => - p * ls))
                       log_student teacher_probs))
  / INR (length log_student).

(** The batch mean of the entropy of the teacher rows,
    [- sum_over_classes(xlogy(p, p))]. *)
Definition entropy_batchmean (teacher_probs : list (list R)) : R :=
  rsum (map (fun row => rsum (map (fun p => - xlogy p p) row)) teacher_probs)
  / INR (length teacher_probs).

(** [torch.cat(blocks)] for blocks of [nc] columns. *)
Definition cat (nc : nat) (leaves : list Leaf)
  (blocks : list (list (list R))) : Tensor :=
  {| ncols := nc; rows := concat blocks; grad_leaves := leaves |}.

(** A crop of a batch: its block of student rows and its block of teacher
    rows. *)
Definition Crop : Type := (list (list R) * list (list R))%type.

(** ** Example inputs *)

(** [torch.zeros(nr, nc)], with the given autograd leaves. *)
Definition zeros (nr nc : nat) (leaves : list Leaf) : Tensor :=
  {| ncols := nc; rows := repeat (repeat 0 nc) nr; grad_leaves := leaves |}.

(** The object [DistillLoss(2, 2)] builds with the default arguments: two
    crops and the schedule [0.07, 0.04]. *)
Definition example_loss : DistillLoss :=
  {| student_temp := 1 / 10; n_crops := 2;
     teacher_temp_schedule := [7 / 100; 4 / 100] |}.

(** Two crops of one row with two classes. *)
Definition example_crop_a : Crop := ([[1; 2]], [[3; 4]]).
Definition example_crop_b : Crop := ([[5; 6]], [[7; 8]]).

(** The student and the teacher outputs of a batch made of these two
    crops. *)
Definition example_student : Tensor :=
  cat 2 [0%nat] [fst example_crop_a; fst example_crop_b].
Definition example_teacher : Tensor :=
  cat 2 [1%nat] [snd example_crop_a; snd example_crop_b].

(** ** Notions used in the further properties *)

(** Two sizes of one axis broadcast: they are equal or one of them is
    1. *)
Definition broadcastable (a b : nat) : Prop :=
  a = b \/ a = 1%nat \/ b = 1%nat.

(** An object with a single crop. *)
Definition example_single_crop : DistillLoss :=
  {| student_temp := 1 / 10; n_crops := 1;
     teacher_temp_schedule := [7 / 100; 4 / 100] |}.

(** * Properties *)

(** ** Results *)

Lemma bind_Ok {A B : Type} (m : result A) (k : A -> result B) (b : B) :
  bind m k = Ok b -> exists a, m = Ok a /\ k a = Ok b.
Proof.
  destruct m as [a | e]; simpl; intros H.
  - exists a. split; [reflexivity | exact H].
  - discriminate H.
Qed.

(** ** The NumPy operations *)

Section NumPy.

Lemma set_last_length (y : list R) (v : R) :
  length (Np.set_last y v) = length y.
Proof.
  induction y as [| x [| x' y] IH]; simpl in *; congruence.
Qed.

Lemma set_last_nth_before (y : list R) (v : R) (i : nat) :
  (S i < length y)%nat -> nth_error (Np.set_last y v) i = nth_error y i.
Proof.
  revert i.
  induction y as [| x [| x' y] IH]; intros i Hi; simpl in Hi; try lia.
  destruct i as [| i]; [reflexivity |].
  change (nth_error (Np.set_last (x' :: y) v) i = nth_error (x' :: y) i).
  apply IH. simpl. lia.
Qed.

Lemma set_last_nth_last (y : list R) (v : R) (i : nat) :
  length y = S i -> nth_error (Np.set_last y v) i = Some v.
Proof.
  revert i.
  induction y as [| x [| x' y] IH]; intros i Hi; simpl in Hi; try lia.
  - injection Hi as <-. reflexivity.
  - destruct i as [| i]; [lia |].
    change (nth_error (Np.set_last (x' :: y) v) i = Some v).
    apply IH. simpl. lia.
Qed.

(** The ramp before the last entry is overwritten: entry [i] is
    [start + i * ((stop - start) / (num - 1))]. *)
Lemma linspace_entry (start stop : R) (div : Z) (i : nat) :
  (0 < div)%Z ->
  (if Req_dec_T ((stop - start) / IZR div) 0
   then INR i / IZR div * (stop - start)
   else INR i * ((stop - start) / IZR div)) + start
  = start + INR i * ((stop - start) / IZR div).
Proof.
  intros Hdiv.
  assert (Hd : IZR div <> 0) by (apply not_0_IZR; lia).
  destruct (Req_dec_T ((stop - start) / IZR div) 0) as [Hz | Hnz].
  - rewrite Hz.
    assert (Hdelta : stop - start = 0).
    { apply (Rmult_eq_compat_r (IZR div)) in Hz.
      unfold Rdiv in Hz. rewrite Rmult_assoc, Rinv_l in Hz by exact Hd.
      lra. }
    rewrite Hdelta. lra.
  - lra.
Qed.

(** [np.linspace] with a non-negative count returns that many entries. *)
Lemma linspace_Ok (start stop : R) (num : Z) :
  (0 <= num)%Z ->
  exists y, Np.linspace start stop num = Ok y /\ length y = Z.to_nat num.
Proof.
  intros Hnum. unfold Np.linspace.
  destruct (Z.ltb_spec num 0) as [Hneg | _]; [lia |].
  eexists. split; [reflexivity |].
  assert (Hlen : forall y : list R,
             length (if (1 <? num)%Z then Np.set_last y stop else y)
             = length y).
  { intros y. destruct (1 <? num)%Z; [apply set_last_length | reflexivity]. }
  rewrite Hlen, length_map.
  destruct (0 <? num - 1)%Z;
    [destruct (Req_dec_T _ 0) |]; rewrite !length_map, length_seq; reflexivity.
Qed.

(** Every entry of the ramp lies on the line from [start] to [stop]. *)
Lemma linspace_nth (start stop : R) (num : Z) (y : list R) (i : nat) :
  Np.linspace start stop num = Ok y ->
  (i < Z.to_nat num)%nat ->
  nth_error y i
  = Some (start + INR i * ((stop - start) / IZR (num - 1))).
Proof.
  unfold Np.linspace. intros Hy Hi.
  destruct (Z.ltb_spec num 0) as [Hneg | Hnum]; [discriminate Hy |].
  injection Hy as <-.
  set (f := fun k : nat => start + INR k * ((stop - start) / IZR (num - 1))).
  assert (Hramp : forall y0 : list R,
             length y0 = Z.to_nat num ->
             (forall k, (k < Z.to_nat num)%nat -> (1 < num)%Z ->
                        S k <> Z.to_nat num -> nth_error y0 k = Some (f k)) ->
             ((num <= 1)%Z -> nth_error y0 i = Some (f i)) ->
             nth_error (if (1 <? num)%Z then Np.set_last y0 stop else y0) i
             = Some (f i)).
  { intros y0 Hlen Hbefore Hsingle.
    destruct (Z.ltb_spec 1 num) as [Hgt | Hle]; [| apply Hsingle; exact Hle].
    destruct (Nat.eq_dec (S i) (Z.to_nat num)) as [Hlast | Hnot].
    - rewrite set_last_nth_last by lia.
      unfold f. f_equal.
      assert (HINR : INR i = IZR (num - 1)).
      { rewrite INR_IZR_INZ. f_equal. lia. }
      rewrite HINR.
      assert (Hd : IZR (num - 1) <> 0) by (apply not_0_IZR; lia).
      field. exact Hd.
    - rewrite set_last_nth_before by lia.
      apply Hbefore; assumption. }
  apply Hramp.
  - destruct (0 <? num - 1)%Z;
      [destruct (Req_dec_T _ 0) |]; rewrite !length_map, length_seq;
      reflexivity.
  - intros k Hk Hgt _.
    destruct (Z.ltb_spec 0 (num - 1)) as [Hdiv | Hdiv]; [| lia].
    pose proof (linspace_entry start stop (num - 1) k Hdiv) as He.
    destruct (Req_dec_T ((stop - start) / IZR (num - 1)) 0) as [Hz | Hnz];
      rewrite !map_map;
      rewrite (nth_error_map _ k (seq 0 (Z.to_nat num)));
      rewrite nth_error_seq;
      (destruct (Nat.ltb_spec k (Z.to_nat num)) as [_ | Hge]; [| lia]);
      simpl; unfold f; f_equal; exact He.
  - intros Hle.
    destruct (Z.ltb_spec 0 (num - 1)) as [Hdiv | _]; [lia |].
    assert (Hi0 : i = 0%nat) by lia.
    subst i. rewrite !map_map.
    rewrite (nth_error_map _ 0 (seq 0 (Z.to_nat num))).
    rewrite nth_error_seq.
    destruct (Nat.ltb_spec 0 (Z.to_nat num)) as [_ | Hge]; [| lia].
    simpl. unfold f. f_equal. simpl. lra.
Qed.

Lemma ones_Ok (shape : Z) :
  (0 <= shape)%Z -> Np.ones shape = Ok (repeat 1 (Z.to_nat shape)).
Proof.
  intros H. unfold Np.ones.
  destruct (Z.ltb_spec shape 0); [lia | reflexivity].
Qed.

(** Indexing with an index in [0, len). *)
Lemma getitem_in_range (arr : list R) (k : Z) :
  (0 <= k < Z.of_nat (length arr))%Z ->
  exists v, Np.getitem arr k = Ok v /\ nth_error arr (Z.to_nat k) = Some v.
Proof.
  intros Hk. unfold Np.getitem.
  destruct (Z.ltb_spec k (- Z.of_nat (length arr))); [lia |].
  destruct (Z.leb_spec (Z.of_nat (length arr)) k); [lia |].
  destruct (Z.ltb_spec k 0); [lia |]. simpl.
  destruct (nth_error arr (Z.to_nat k)) as [v |] eqn:Hnth.
  - exists v. split; reflexivity.
  - apply nth_error_None in Hnth. lia.
Qed.

(** Indexing with an index in [-len, 0) counts from the end. *)
Lemma getitem_negative (arr : list R) (k : Z) :
  (- Z.of_nat (length arr) <= k < 0)%Z ->
  exists v, Np.getitem arr k = Ok v /\
            nth_error arr (Z.to_nat (k + Z.of_nat (length arr))) = Some v.
Proof.
  intros Hk. unfold Np.getitem.
  destruct (Z.ltb_spec k (- Z.of_nat (length arr))); [lia |].
  destruct (Z.leb_spec (Z.of_nat (length arr)) k); [lia |].
  destruct (Z.ltb_spec k 0); [| lia]. simpl.
  destruct (nth_error arr (Z.to_nat (k + Z.of_nat (length arr))))
    as [v |] eqn:Hnth.
  - exists v. split; reflexivity.
  - apply nth_error_None in Hnth. lia.
Qed.

(** Indexing outside [-len, len) raises [IndexError]. *)
Lemma getitem_out_of_range (arr : list R) (k : Z) :
  (k < - Z.of_nat (length arr) \/ Z.of_nat (length arr) <= k)%Z ->
  Np.getitem arr k = Raise IndexError.
Proof.
  intros Hk. unfold Np.getitem.
  destruct (Z.ltb_spec k (- Z.of_nat (length arr))); [reflexivity |].
  destruct (Z.leb_spec (Z.of_nat (length arr)) k); [reflexivity | lia].
Qed.

End NumPy.

Lemma getitem_nth (arr : list R) (k : Z) (v : R) :
  (0 <= k)%Z -> nth_error arr (Z.to_nat k) = Some v -> Np.getitem arr k = Ok v.
Proof.
  intros Hk Hnth.
  assert (Hlt : (Z.to_nat k < length arr)%nat).
  { apply nth_error_Some. rewrite Hnth. discriminate. }
  destruct (getitem_in_range arr k) as [v' [Hget Hnth']]; [lia |].
  rewrite Hget. congruence.
Qed.

(** ** The constructor *)

Section Init.

Variables (w E n : Z) (a b T : R).

(** The schedule [__init__] builds when both array sizes are accepted. *)
Lemma init_Ok :
  (0 <= w)%Z -> (w <= E)%Z ->
  exists ramp,
    Np.linspace a b w = Ok ramp /\ length ramp = Z.to_nat w /\
    init w E n a b T
    = Ok {| student_temp := T; n_crops := n;
            teacher_temp_schedule :=
              ramp ++ map (fun v => v * b) (repeat 1 (Z.to_nat (E - w))) |}.
Proof.
  intros Hw HE.
  destruct (linspace_Ok a b w Hw) as [ramp [Hramp Hlen]].
  exists ramp. split; [exact Hramp | split; [exact Hlen |]].
  unfold init. rewrite Hramp. simpl.
  rewrite ones_Ok by lia. reflexivity.
Qed.

(** C6.  When the warm-up is longer than the whole schedule the constructor
    raises: [np.ones] (or, for a negative warm-up, [np.linspace]) rejects
    the negative size with [ValueError], and no schedule is built. *)
Theorem init_warmup_longer_than_epochs_raises :
  (E < w)%Z -> init w E n a b T = Raise ValueError.
Proof.
  intros Hlt. unfold init.
  destruct (Np.linspace a b w) as [ramp | e] eqn:Hramp.
  - simpl. unfold Np.ones.
    destruct (Z.ltb_spec (E - w) 0) as [_ | Hge]; [reflexivity | lia].
  - unfold Np.linspace in Hramp.
    destruct (w <? 0)%Z; [| discriminate Hramp].
    injection Hramp as <-. reflexivity.
Qed.

(** C2 (amended).  For [1 <= w <= E] the constructor succeeds and the
    schedule has [E] entries; entry 0 is [a]; when [w >= 2] entry [w - 1]
    is [b] and entry [i] of the first [w] is
    [a + i * ((b - a) / (w - 1))] (for [w = 1] the ramp is the single
    entry [a]); and every entry from [w] on is [b]. *)
Theorem schedule_ramp_then_constant :
  (1 <= w)%Z -> (w <= E)%Z ->
  exists self,
    init w E n a b T = Ok self /\
    length (teacher_temp_schedule self) = Z.to_nat E /\
    Np.getitem (teacher_temp_schedule self) 0 = Ok a /\
    ((2 <= w)%Z -> Np.getitem (teacher_temp_schedule self) (w - 1) = Ok b) /\
    (forall e, (w <= e < E)%Z ->
               Np.getitem (teacher_temp_schedule self) e = Ok b) /\
    (forall i, (2 <= w)%Z -> (0 <= i < w)%Z ->
               Np.getitem (teacher_temp_schedule self) i
               = Ok (a + IZR i * ((b - a) / IZR (w - 1)))).
Proof.
  intros Hw HE.
  destruct init_Ok as [ramp [Hramp [Hlen Hinit]]]; [lia | exact HE |].
  eexists. split; [exact Hinit |]. simpl.
  assert (Hentry : forall i, (0 <= i < w)%Z ->
            Np.getitem
              (ramp ++ map (fun v => v * b) (repeat 1 (Z.to_nat (E - w)))) i
            = Ok (a + IZR i * ((b - a) / IZR (w - 1)))).
  { intros i Hi. apply getitem_nth; [lia |].
    rewrite nth_error_app1 by lia.
    rewrite (linspace_nth a b w ramp (Z.to_nat i) Hramp) by lia.
    rewrite INR_IZR_INZ, Z2Nat.id by lia. reflexivity. }
  repeat split.
  - rewrite length_app, length_map, repeat_length. lia.
  - rewrite (Hentry 0%Z) by lia. f_equal. lra.
  - intros Hw2. rewrite (Hentry (w - 1)%Z) by lia. f_equal.
    assert (Hd : IZR (w - 1) <> 0) by (apply not_0_IZR; lia).
    field. exact Hd.
  - intros e He. apply getitem_nth; [lia |].
    rewrite nth_error_app2 by lia.
    rewrite nth_error_map.
    rewrite (nth_error_repeat 1) by lia.
    simpl. f_equal. lra.
  - intros i _. apply Hentry.
Qed.

End Init.

(** Witness of C6: three warm-up epochs, two epochs in all. *)
Lemma init_warmup_longer_than_epochs_raises_witness :
  (2 < 3)%Z /\ init 3 2 2 (7 / 100) (4 / 100) (1 / 10) = Raise ValueError.
Proof.
  split; [lia |].
  apply (init_warmup_longer_than_epochs_raises 3 2 2); lia.
Defined.

(** Witness of C2 (amended): the defaults with a warm-up of ten epochs out
    of thirty. *)
Lemma schedule_ramp_then_constant_witness :
  (1 <= 10)%Z /\ (10 <= 30)%Z /\
  exists self,
    init 10 30 2 (7 / 100) (4 / 100) (1 / 10) = Ok self /\
    length (teacher_temp_schedule self) = Z.to_nat 30 /\
    Np.getitem (teacher_temp_schedule self) 0 = Ok (7 / 100) /\
    ((2 <= 10)%Z ->
     Np.getitem (teacher_temp_schedule self) (10 - 1) = Ok (4 / 100)) /\
    (forall e, (10 <= e < 30)%Z ->
               Np.getitem (teacher_temp_schedule self) e = Ok (4 / 100)) /\
    (forall i, (2 <= 10)%Z -> (0 <= i < 10)%Z ->
               Np.getitem (teacher_temp_schedule self) i
               = Ok (7 / 100 + IZR i * ((4 / 100 - 7 / 100) / IZR (10 - 1)))).
Proof.
  split; [lia | split; [lia |]].
  apply (schedule_ramp_then_constant 10 30 2); lia.
Defined.

(** C2, as stated, fails for a warm-up of one epoch: [np.linspace(a, b, 1)]
    is the single entry [a], so entry [w - 1] is 0.07, not 0.04. *)
Lemma schedule_single_warmup_epoch_starts_at_warmup_temp :
  exists self,
    init 1 1 2 (7 / 100) (4 / 100) (1 / 10) = Ok self /\
    Np.getitem (teacher_temp_schedule self) (1 - 1) = Ok (7 / 100) /\
    Np.getitem (teacher_temp_schedule self) (1 - 1) <> Ok (4 / 100).
Proof.
  destruct (init_Ok 1 1 2 (7 / 100) (4 / 100) (1 / 10))
    as [ramp [Hramp [Hlen Hinit]]]; [lia | lia |].
  eexists. split; [exact Hinit |]. simpl.
  change (1 - 1)%Z with 0%Z.
  assert (Hget : Np.getitem (ramp ++ []) 0 = Ok (7 / 100)).
  { apply getitem_nth; [lia |].
    change (Z.to_nat 0) with 0%nat.
    rewrite nth_error_app1 by (rewrite Hlen; simpl; lia).
    rewrite (linspace_nth _ _ _ _ 0%nat Hramp) by (simpl; lia).
    simpl. f_equal. lra. }
  rewrite Hget. split; [reflexivity |].
  intros Heq. injection Heq as Heq. lra.
Qed.

(** ** Chunking *)

Section Chunk.

Lemma narrow_piece (t : Tensor) (start len : nat) :
  narrow t (Z.of_nat start) (Z.of_nat len) = piece t start len.
Proof. unfold narrow, piece. rewrite !Nat2Z.id. reflexivity. Qed.

Lemma firstn_add_skipn {A : Type} (a b : nat) (l : list A) :
  firstn (a + b) l = firstn a l ++ firstn b (skipn a l).
Proof.
  revert l. induction a as [| a IH]; intros l; [reflexivity |].
  destruct l as [| x l]; simpl.
  - rewrite firstn_nil. reflexivity.
  - rewrite IH. reflexivity.
Qed.

(** Consecutive pieces of [s] rows put together are the first rows. *)
Lemma concat_pieces {A : Type} (s k : nat) (l : list A) :
  concat (map (fun i => firstn s (skipn (i * s) l)) (seq 0 k))
  = firstn (k * s) l.
Proof.
  induction k as [| k IH]; [reflexivity |].
  rewrite seq_S, map_app, concat_app, IH. simpl.
  rewrite app_nil_r, (Nat.add_comm s (k * s)).
  symmetry. apply firstn_add_skipn.
Qed.

(** What [split] returns for a positive piece size: [m] pieces, the first
    [m - 1] of [s] rows and the last one with the remaining rows. *)
Lemma split_Ok (t : Tensor) (s : nat) :
  (1 <= s)%nat ->
  exists m : nat,
    (1 <= m)%nat /\ ((m - 1) * s <= nrows t)%nat /\ (nrows t <= m * s)%nat /\
    (nrows t = 0%nat \/ (m - 1) * s < nrows t)%nat /\
    split t (Z.of_nat s)
    = Ok (map (fun i => piece t (i * s) s) (seq 0 (m - 1))
          ++ [piece t ((m - 1) * s) (nrows t - (m - 1) * s)]).
Proof.
  intros Hs. unfold split.
  destruct (Z.ltb_spec (Z.of_nat s) 0) as [Hneg | _]; [lia |].
  destruct (Z.eqb_spec (Z.of_nat s) 0) as [Hz | _]; [lia |]. cbn [andb negb].
  set (d := nrows t).
  set (q := ((Z.of_nat d + Z.of_nat s - 1) / Z.of_nat s)%Z).
  assert (Hq : (Z.of_nat s * q <= Z.of_nat d + Z.of_nat s - 1
                < Z.of_nat s * q + Z.of_nat s)%Z).
  { unfold q.
    pose proof (Z.div_mod (Z.of_nat d + Z.of_nat s - 1) (Z.of_nat s)) as Hdm.
    pose proof (Z.mod_pos_bound (Z.of_nat d + Z.of_nat s - 1) (Z.of_nat s)).
    lia. }
  assert (Hq0 : (0 <= q)%Z) by nia.
  set (m := Z.to_nat (Z.max q 1)).
  assert (Hm : Z.max q 1 = Z.of_nat m) by (unfold m; lia).
  exists m.
  assert (Hm1 : (1 <= m)%nat) by lia.
  assert (Hlo : ((m - 1) * s <= d)%nat) by nia.
  assert (Hhi : (d <= m * s)%nat) by nia.
  assert (Hstrict : (d = 0 \/ (m - 1) * s < d)%nat) by nia.
  repeat (split; [assumption |]).
  fold d. fold q. fold m. f_equal. rewrite Hm.
  replace m with (m - 1 + 1)%nat at 1 by lia.
  rewrite seq_app, map_app. f_equal.
  - apply map_ext_in. intros i Hi. apply in_seq in Hi.
    destruct (Z.ltb_spec (Z.of_nat i) (Z.of_nat m - 1)) as [_ | Hge]; [| lia].
    rewrite <- Nat2Z.inj_mul. apply narrow_piece.
  - simpl.
    destruct (Z.ltb_spec (Z.of_nat (m - 1)) (Z.of_nat m - 1)) as [Hlt | _];
      [lia |].
    rewrite <- Nat2Z.inj_mul.
    replace (Z.of_nat s - (Z.of_nat s * Z.of_nat m - Z.of_nat d))%Z
      with (Z.of_nat (d - (m - 1) * s)) by nia.
    rewrite narrow_piece. reflexivity.
Qed.


(** [chunk] never raises for a positive number of chunks: the pieces are
    consecutive, cover every row once, and all but the last have
    [ceil(nrows / chunks)] rows. *)
Lemma chunk_Ok (t : Tensor) (chunks : Z) :
  (1 <= chunks)%Z ->
  exists blocks,
    chunk t chunks = Ok blocks /\
    concat (map rows blocks) = rows t /\
    (1 <= Z.of_nat (length blocks) <= chunks)%Z /\
    (forall i b, nth_error blocks i = Some b ->
       ncols b = ncols t /\ grad_leaves b = grad_leaves t /\
       (Z.of_nat (nrows b) <= (Z.of_nat (nrows t) + chunks - 1) / chunks)%Z /\
       ((S i < length blocks)%nat ->
        Z.of_nat (nrows b) = ((Z.of_nat (nrows t) + chunks - 1) / chunks)%Z)).
Proof.
  intros Hc. unfold chunk.
  destruct (Z.leb_spec chunks 0) as [Hle | _]; [lia |].
  set (d := nrows t).
  set (sz := ((Z.of_nat d + chunks - 1) / chunks)%Z).
  assert (Hsz : (chunks * sz <= Z.of_nat d + chunks - 1
                 < chunks * sz + chunks)%Z).
  { unfold sz.
    pose proof (Z.div_mod (Z.of_nat d + chunks - 1) chunks) as Hdm.
    pose proof (Z.mod_pos_bound (Z.of_nat d + chunks - 1) chunks).
    lia. }
  assert (Hsz0 : (0 <= sz)%Z) by nia.
  destruct (Z.eqb_spec sz 0) as [Hz | Hnz].
  - assert (Hd : d = 0%nat) by nia.
    destruct (Z.eqb_spec (Z.of_nat d) 0) as [_ | Hne]; [| lia].
    cbn [andb]. eexists. split; [reflexivity |].
    assert (Hrows : rows t = []) by (apply length_zero_iff_nil; exact Hd).
    split; [| split].
    + rewrite Hrows, map_repeat. simpl.
      induction (Z.to_nat chunks) as [| k IH]; [reflexivity | exact IH].
    + rewrite repeat_length. lia.
    + intros i b Hb. apply nth_error_In, repeat_spec in Hb. subst b.
      unfold nrows. simpl. repeat split; lia.
  - cbn [andb].
    destruct (split_Ok t (Z.to_nat sz))
      as [m [Hm1 [Hlo [Hhi [Hstrict Hsplit]]]]]; [lia |].
    rewrite Z2Nat.id in Hsplit by lia.
    rewrite Hsplit. eexists. split; [reflexivity |].
    fold d in Hlo, Hhi, Hstrict.
    split; [| split].
    + rewrite map_app, concat_app, map_map. simpl.
      rewrite (concat_pieces (Z.to_nat sz) (m - 1) (rows t)), app_nil_r.
      rewrite firstn_all2 with (l := skipn _ _)
        by (rewrite length_skipn; fold (nrows t); lia).
      apply firstn_skipn.
    + rewrite length_app, length_map, length_seq. simpl. nia.
    + intros i b Hb.
      assert (Hcases :
                (i < m - 1)%nat /\ b = piece t (i * Z.to_nat sz) (Z.to_nat sz)
                \/ i = (m - 1)%nat /\
                   b = piece t ((m - 1) * Z.to_nat sz)
                             (nrows t - (m - 1) * Z.to_nat sz)).
      { destruct (Nat.lt_ge_cases i (m - 1)) as [Hlt | Hge].
        - left. split; [exact Hlt |].
          rewrite nth_error_app1 in Hb
            by (rewrite length_map, length_seq; exact Hlt).
          rewrite nth_error_map, nth_error_seq in Hb.
          destruct (Nat.ltb_spec i (m - 1)); [| lia].
          simpl in Hb. congruence.
        - right.
          rewrite nth_error_app2 in Hb
            by (rewrite length_map, length_seq; exact Hge).
          rewrite length_map, length_seq in Hb.
          destruct (i - (m - 1))%nat as [| k] eqn:Hk; simpl in Hb.
          + split; [lia | congruence].
          + destruct k; discriminate Hb. }
      rewrite length_app, length_map, length_seq. simpl.
      destruct Hcases as [[Hlt ->] | [-> ->]]; unfold nrows; simpl;
        rewrite length_firstn, length_skipn; fold (nrows t); fold d;
        repeat split; nia.
Qed.

(** A tensor of [n * B] rows is chunked into [n] blocks of [B] rows. *)
Lemma chunk_divisible (t : Tensor) (n B : nat) :
  (1 <= n)%nat -> nrows t = (n * B)%nat ->
  chunk t (Z.of_nat n) = Ok (map (fun i => piece t (i * B) B) (seq 0 n)).
Proof.
  intros Hn Hrows. unfold chunk.
  destruct (Z.leb_spec (Z.of_nat n) 0) as [Hle | _]; [lia |].
  assert (Hsz : ((Z.of_nat (nrows t) + Z.of_nat n - 1) / Z.of_nat n
                 = Z.of_nat B)%Z).
  { symmetry. apply (Z.div_unique_pos _ _ _ (Z.of_nat n - 1)); [lia |].
    rewrite Hrows. lia. }
  rewrite Hsz.
  destruct B as [| B'].
  - rewrite Hrows, Nat.mul_0_r. simpl. rewrite Nat2Z.id. f_equal.
    rewrite (map_ext _ (fun _ => narrow t 0 0)), map_const, length_seq;
      [reflexivity |].
    intros i. unfold narrow, piece. simpl. reflexivity.
  - destruct (Z.eqb_spec (Z.of_nat (S B')) 0) as [Hz | _]; [lia |].
    cbn [andb].
    destruct (split_Ok t (S B')) as [m [Hm1 [Hlo [Hhi [Hstrict Hsplit]]]]];
      [lia |].
    rewrite Hsplit. f_equal.
    assert (Hm : m = n) by nia. subst m.
    assert (Hseq : seq 0 n = seq 0 (n - 1) ++ [(n - 1)%nat]).
    { replace n with (S (n - 1)) at 1 by lia. apply seq_S. }
    rewrite Hseq, map_app. simpl. do 3 f_equal. nia.
Qed.

End Chunk.

(** ** Row-wise operations and [kl_div] *)

Section Rows.

Lemma piece_map_rows (f : list R -> list R) (t : Tensor) (start len : nat) :
  piece (map_rows f t) start len = map_rows f (piece t start len).
Proof.
  unfold piece, map_rows. simpl.
  rewrite skipn_map, firstn_map. reflexivity.
Qed.

Lemma Forall_firstn_skipn {A : Type} (P : A -> Prop) (a b : nat)
  (l : list A) :
  Forall P l -> Forall P (firstn b (skipn a l)).
Proof.
  intros H.
  assert (Hskip : Forall P (skipn a l)).
  { revert a. induction H as [| x l Hx Hl IH]; intros [| a]; simpl;
      auto using Forall. }
  revert b. induction Hskip as [| x l' Hx _ IH]; intros [| b]; simpl;
    constructor; [exact Hx | apply IH].
Qed.

Lemma wf_piece (t : Tensor) (start len : nat) :
  wf t -> wf (piece t start len).
Proof. unfold wf, piece. simpl. apply Forall_firstn_skipn. Qed.

Lemma wf_map_rows (f : list R -> list R) (t : Tensor) :
  (forall r, length (f r) = length r) -> wf t -> wf (map_rows f t).
Proof.
  unfold wf, map_rows. simpl. intros Hf H.
  rewrite Forall_map. revert H. apply Forall_impl.
  intros r Hr. rewrite Hf. exact Hr.
Qed.

Lemma softmax_row_length (r : list R) : length (softmax_row r) = length r.
Proof. unfold softmax_row. apply length_map. Qed.

Lemma log_softmax_row_length (r : list R) :
  length (log_softmax_row r) = length r.
Proof. unfold log_softmax_row. apply length_map. Qed.

Lemma nrows_piece (t : Tensor) (start len : nat) :
  (start + len <= nrows t)%nat -> nrows (piece t start len) = len.
Proof.
  unfold nrows, piece. simpl. intros H.
  rewrite length_firstn, length_skipn. lia.
Qed.

Lemma expand_same {A : Type} (d : A) (l : list A) :
  expand d (length l) l = l.
Proof. unfold expand. rewrite Nat.eqb_refl. reflexivity. Qed.

Lemma expand_as_same (t : Tensor) :
  wf t -> expand_as t (nrows t) (ncols t) = rows t.
Proof.
  unfold wf, expand_as, nrows. intros H.
  assert (Hmap : map (expand 0 (ncols t)) (rows t) = rows t).
  { induction H as [| r l Hr _ IH]; [reflexivity |].
    simpl. rewrite IH, <- Hr, expand_same. reflexivity. }
  rewrite Hmap. apply expand_same.
Qed.

(** [F.kl_div] on two well-formed tensors of one shape. *)
Lemma kl_div_same_shape (input target : Tensor) :
  wf input -> wf target ->
  nrows input = nrows target -> ncols input = ncols target ->
  kl_div input target
  = Ok {| item := kl_batchmean (rows input) (rows target);
          scalar_leaves := grad_leaves input ++ grad_leaves target |}.
Proof.
  intros Hin Htg Hr Hc. unfold kl_div, broadcast_dim.
  rewrite <- Hr, <- Hc, !Nat.eqb_refl. simpl.
  rewrite (expand_as_same input Hin).
  rewrite Hr, Hc, (expand_as_same target Htg).
  unfold kl_batchmean. rewrite <- Hr. reflexivity.
Qed.

End Rows.

(** ** The loops *)

Section Loops.

Variables (student_outs teacher_outs : list Tensor) (n : nat).
Variable term : nat -> nat -> Scalar.

(** Every pair of distinct crops below [n] has its two blocks, and
    [F.kl_div] returns [term i j] on them. *)
Hypothesis Hterm :
  forall i j, (i < n)%nat -> (j < n)%nat -> i <> j ->
    exists s_i t_j,
      nth_error student_outs i = Some s_i /\
      nth_error teacher_outs j = Some t_j /\
      kl_div (log_softmax s_i) t_j = Ok (term i j).

Lemma loop_body_same (i : nat) (acc : Acc) :
  loop_body student_outs teacher_outs i i acc = Ok acc.
Proof. unfold loop_body. rewrite Nat.eqb_refl. reflexivity. Qed.

Lemma loop_body_distinct (i j : nat) (acc : Acc) :
  (i < n)%nat -> (j < n)%nat -> i <> j ->
  loop_body student_outs teacher_outs i j acc
  = Ok (add_term term acc (i, j)).
Proof.
  intros Hi Hj Hij. unfold loop_body.
  destruct (Nat.eqb_spec i j) as [Heq | _]; [contradiction |].
  destruct (Hterm i j Hi Hj Hij) as [s_i [t_j [Hs [Ht Hkl]]]].
  unfold tuple_getitem. rewrite Hs, Ht. simpl. rewrite Hkl. reflexivity.
Qed.

Lemma inner_loop_steps (i : nat) (js : list nat) (acc : Acc) :
  (i < n)%nat -> Forall (fun j => (j < n)%nat) js ->
  fold_left (fun st j =>
               acc <- st ;; loop_body student_outs teacher_outs i j acc)
            js (Ok acc)
  = Ok (fold_left (add_term term)
                  (map (pair i) (filter (fun j => negb (i =? j)%nat) js))
                  acc).
Proof.
  intros Hi Hjs. revert acc.
  induction Hjs as [| j js Hj _ IH]; intros acc; [reflexivity |].
  simpl. destruct (Nat.eqb_spec i j) as [<- | Hij]; simpl.
  - rewrite loop_body_same. apply IH.
  - rewrite (loop_body_distinct i j acc Hi Hj Hij). apply IH.
Qed.

Lemma seq_below (k : nat) : Forall (fun j => (j < k)%nat) (seq 0 k).
Proof. apply Forall_forall. intros j Hj. apply in_seq in Hj. lia. Qed.

Lemma outer_loop_steps (is_ : list nat) (acc : Acc) :
  Forall (fun i => (i < n)%nat) is_ ->
  fold_left (fun st i =>
               acc <- st ;; inner_loop student_outs teacher_outs n i acc)
            is_ (Ok acc)
  = Ok (fold_left (add_term term)
          (flat_map (fun i => map (pair i)
                        (filter (fun j => negb (i =? j)%nat) (seq 0 n))) is_)
          acc).
Proof.
  intros His. revert acc.
  induction His as [| i is_ Hi _ IH]; intros acc; [reflexivity |].
  simpl. unfold inner_loop at 2.
  rewrite (inner_loop_steps i (seq 0 n) acc Hi (seq_below n)).
  rewrite IH, fold_left_app. reflexivity.
Qed.

(** The two loops add the terms of the pairs of distinct crops, in
    order, and nothing else. *)
Lemma outer_loop_Ok (acc : Acc) :
  outer_loop student_outs teacher_outs n acc
  = Ok (fold_left (add_term term) (crop_pairs n) acc).
Proof. unfold outer_loop. apply outer_loop_steps, seq_below. Qed.

End Loops.

Section Accumulated.

Variable term : nat -> nat -> Scalar.

Lemma add_terms_n_terms (ps : list (nat * nat)) (acc : Acc) :
  n_terms (fold_left (add_term term) ps acc)
  = (n_terms acc + Z.of_nat (length ps))%Z.
Proof.
  revert acc. induction ps as [| p ps IH]; intros acc; simpl; [lia |].
  rewrite IH. simpl. lia.
Qed.

Lemma add_terms_terms (ps : list (nat * nat)) (acc : Acc) :
  terms (fold_left (add_term term) ps acc)
  = terms acc
    ++ map (fun p => (fst p, snd p, item (term (fst p) (snd p)))) ps.
Proof.
  revert acc. induction ps as [| p ps IH]; intros acc; simpl.
  - rewrite app_nil_r. reflexivity.
  - rewrite IH. simpl. rewrite <- app_assoc. reflexivity.
Qed.

(** The loss is the sum of the terms, added one after the other. *)
Lemma add_terms_item_fold (ps : list (nat * nat)) (acc : Acc) :
  item (loss (fold_left (add_term term) ps acc))
  = fold_left Rplus (map (fun p => item (term (fst p) (snd p))) ps)
              (item (loss acc)).
Proof.
  revert acc. induction ps as [| p ps IH]; intros acc; [reflexivity |].
  simpl. rewrite IH. reflexivity.
Qed.

Lemma add_terms_leaves (ps : list (nat * nat)) (acc : Acc) :
  scalar_leaves (loss (fold_left (add_term term) ps acc))
  = scalar_leaves (loss acc)
    ++ flat_map (fun p => scalar_leaves (term (fst p) (snd p))) ps.
Proof.
  revert acc. induction ps as [| p ps IH]; intros acc; simpl.
  - rewrite app_nil_r. reflexivity.
  - rewrite IH. simpl. rewrite <- app_assoc. reflexivity.
Qed.

End Accumulated.

Section CropPairs.

Lemma in_crop_pairs (n i j : nat) :
  In (i, j) (crop_pairs n) <-> (i < n)%nat /\ (j < n)%nat /\ i <> j.
Proof.
  unfold crop_pairs. rewrite in_flat_map. split.
  - intros [i' [Hi' Hin]]. apply in_map_iff in Hin.
    destruct Hin as [j' [Heq Hj']]. injection Heq as -> ->.
    apply filter_In in Hj'. destruct Hj' as [Hj' Hne].
    apply in_seq in Hi', Hj'.
    destruct (Nat.eqb_spec i j); [discriminate Hne | lia].
  - intros [Hi [Hj Hij]]. exists i. split; [apply in_seq; lia |].
    apply in_map, filter_In. split; [apply in_seq; lia |].
    destruct (Nat.eqb_spec i j); [contradiction | reflexivity].
Qed.

Lemma filter_other_length (n i : nat) :
  (i < n)%nat ->
  length (filter (fun j => negb (i =? j)%nat) (seq 0 n)) = (n - 1)%nat.
Proof.
  intros Hi.
  pose proof (filter_length (fun j => negb (i =? j)%nat) (seq 0 n)) as Hsum.
  rewrite length_seq in Hsum.
  assert (Hone : length (filter (fun x => negb (negb (i =? x)%nat)) (seq 0 n))
                 = 1%nat).
  { replace n with (i + (1 + (n - i - 1)))%nat by lia.
    rewrite seq_app, seq_app, !filter_app, !length_app. simpl.
    rewrite Nat.eqb_refl. simpl.
    assert (Hnone : forall l, ~ In i l ->
              filter (fun x => negb (negb (i =? x)%nat)) l = []).
    { induction l as [| x l IH]; intros Hnot; [reflexivity |].
      simpl. destruct (Nat.eqb_spec i x) as [-> | Hne]; simpl.
      - exfalso. apply Hnot. left. reflexivity.
      - apply IH. intros Hin. apply Hnot. right. exact Hin. }
    rewrite !Hnone; [reflexivity | |]; rewrite in_seq; lia. }
  lia.
Qed.

Lemma crop_pairs_length (n : nat) :
  length (crop_pairs n) = (n * (n - 1))%nat.
Proof.
  unfold crop_pairs.
  rewrite (flat_map_constant_length (c := (n - 1)%nat)).
  - rewrite length_seq. reflexivity.
  - intros i Hi. apply in_seq in Hi.
    rewrite length_map. apply filter_other_length. lia.
Qed.

Lemma crop_pairs_NoDup (n : nat) : NoDup (crop_pairs n).
Proof.
  unfold crop_pairs.
  assert (Hgen : forall is_, NoDup is_ ->
            NoDup (flat_map (fun i => map (pair i)
                     (filter (fun j => negb (i =? j)%nat) (seq 0 n))) is_)).
  { induction 1 as [| i is_ Hnotin _ IH]; simpl; [constructor |].
    apply NoDup_app; [| exact IH |].
    - apply Finite.Injective_map_NoDup.
      + intros x y Heq. congruence.
      + apply NoDup_filter, seq_NoDup.
    - intros [i' j'] Hin1 Hin2.
      apply in_map_iff in Hin1. destruct Hin1 as [j [Heq _]].
      injection Heq as <- <-.
      apply in_flat_map in Hin2. destruct Hin2 as [i2 [Hi2 Hin2]].
      apply in_map_iff in Hin2. destruct Hin2 as [j2 [Heq2 _]].
      injection Heq2 as -> _. contradiction. }
  apply Hgen, seq_NoDup.
Qed.

End CropPairs.

(** ** [forward] on valid shapes *)

Section ValidShapes.

Variables (self : DistillLoss) (s t : Tensor) (epoch : Z) (B : nat).
Hypothesis Hvalid : valid_shapes self s t epoch B.

Let n : nat := Z.to_nat (n_crops self).

Lemma nth_error_pieces (x : Tensor) (i : nat) :
  (i < n)%nat ->
  nth_error (map (fun k => piece x (k * B) B) (seq 0 n)) i
  = Some (piece x (i * B) B).
Proof.
  intros Hi. rewrite nth_error_map, nth_error_seq.
  destruct (Nat.ltb_spec i n); [reflexivity | lia].
Qed.

Lemma block_bound (i : nat) : (i < n)%nat -> (i * B + B <= n * B)%nat.
Proof. intros Hi. nia. Qed.

(** On blocks of one shape [F.kl_div] returns the term of the pair. *)
Lemma kl_div_blocks (temp : R) (i j : nat) :
  (i < n)%nat -> (j < n)%nat ->
  kl_div (log_softmax (student_block self s B i)) (teacher_block temp t B j)
  = Ok (pair_term self s t temp B i j).
Proof.
  intros Hi Hj. destruct Hvalid as [_ Hswf Htwf Hsr Htr Hc _].
  fold n in Hsr, Htr.
  rewrite kl_div_same_shape.
  - unfold pair_term. simpl. rewrite app_nil_r. reflexivity.
  - apply wf_map_rows; [apply log_softmax_row_length |].
    apply wf_piece, wf_map_rows; [intros r; apply length_map | exact Hswf].
  - apply wf_piece.
    change (wf (map_rows softmax_row
                  (map_rows (map (fun v => v / temp)) t))).
    apply wf_map_rows; [apply softmax_row_length |].
    apply wf_map_rows; [intros r; apply length_map | exact Htwf].
  - unfold log_softmax, student_block, teacher_block.
    rewrite <- piece_map_rows.
    rewrite !nrows_piece; [reflexivity | |];
      unfold nrows; simpl; rewrite !length_map;
      [fold (nrows t); rewrite Htr | fold (nrows s); rewrite Hsr];
      apply block_bound; assumption.
  - simpl. exact Hc.
Qed.

(** The state at the end of the loops: the terms of the pairs of distinct
    crops, added in order to the initial state. *)
Lemma forward_acc_valid :
  exists temp,
    Np.getitem (teacher_temp_schedule self) epoch = Ok temp /\
    nth_error (teacher_temp_schedule self) (Z.to_nat epoch) = Some temp /\
    forward_acc self s t epoch
    = Ok (fold_left (add_term (pair_term self s t temp B))
                    (crop_pairs n) acc0).
Proof.
  destruct Hvalid as [Hn Hswf Htwf Hsr Htr Hc He].
  fold n in Hsr, Htr.
  assert (Hn' : n_crops self = Z.of_nat n) by (unfold n; lia).
  destruct (getitem_in_range _ _ He) as [temp [Hget Hnth]].
  exists temp. split; [exact Hget | split; [exact Hnth |]].
  unfold forward_acc. rewrite Hn'.
  rewrite (chunk_divisible _ n B) by (unfold nrows in *; simpl;
                                      rewrite ?length_map; lia).
  simpl. rewrite Hget. simpl.
  rewrite (chunk_divisible _ n B) by (unfold nrows in *; simpl;
                                      rewrite ?length_map; lia).
  simpl. rewrite Nat2Z.id.
  apply outer_loop_Ok.
  intros i j Hi Hj Hij.
  exists (student_block self s B i), (teacher_block temp t B j).
  split; [apply nth_error_pieces; exact Hi |].
  split; [apply nth_error_pieces; exact Hj |].
  apply kl_div_blocks; assumption.
Qed.

(** [forward] returns the accumulated loss divided by the number of
    pairs. *)
Lemma forward_valid :
  exists temp,
    Np.getitem (teacher_temp_schedule self) epoch = Ok temp /\
    nth_error (teacher_temp_schedule self) (Z.to_nat epoch) = Some temp /\
    forall acc,
      acc = fold_left (add_term (pair_term self s t temp B))
                      (crop_pairs n) acc0 ->
      forward self s t epoch
      = Ok {| item := item (loss acc) / IZR (Z.of_nat (n * (n - 1)));
              scalar_leaves := scalar_leaves (loss acc) |}.
Proof.
  destruct forward_acc_valid as [temp [Hget [Hnth Hacc]]].
  exists temp. split; [exact Hget | split; [exact Hnth |]].
  intros acc ->. unfold forward. rewrite Hacc. simpl.
  unfold true_div.
  rewrite add_terms_n_terms, crop_pairs_length. simpl.
  destruct Hvalid as [Hn _ _ _ _ _ _].
  destruct (Z.eqb_spec (Z.of_nat (n * (n - 1))) 0) as [Hz | _];
    [unfold n in Hz; nia | reflexivity].
Qed.

End ValidShapes.

(** ** Running the model on the examples *)

(** Evaluation of the model on closed inputs, leaving the real-number
    operations in place. *)
Ltac run_model :=
  cbv - [Rplus Rminus Rmult Rdiv Rinv Ropp exp ln Req_dec_T IZR INR].

Lemma example_loss_from_init :
  init 2 2 2 (7 / 100) (4 / 100) (1 / 10) = Ok example_loss.
Proof.
  run_model.
  destruct (Req_dec_T _ 0); unfold example_loss; do 3 f_equal; simpl; lra.
Qed.

(** ** The terms the loops add *)

(** C7.  On valid shapes, for [n = n_crops >= 2], the loops end with
    [n_terms = n * (n - 1)].  The terms that were added are those of the
    ordered pairs [(i, j)] of distinct crops below [n], each pair once, and
    no term was added for a pair [(i, i)].  The term of the pair [(i, j)]
    is what [F.kl_div] returns on the log-softmax of block [i] of the
    chunked student outputs and block [j] of the chunked teacher
    probabilities; [loss] is the sum of these terms, added to 0 one after
    the other in the order of the loops; and [forward] returns this sum
    divided by [n * (n - 1)]. *)
Theorem forward_adds_one_term_per_ordered_pair
  (self : DistillLoss) (s t : Tensor) (epoch : Z) (B : nat) :
  valid_shapes self s t epoch B ->
  exists acc temp student_outs teacher_outs,
    Np.getitem (teacher_temp_schedule self) epoch = Ok temp /\
    chunk (div_scalar s (student_temp self)) (n_crops self)
    = Ok student_outs /\
    chunk (detach (softmax (div_scalar t temp))) (n_crops self)
    = Ok teacher_outs /\
    forward_acc self s t epoch = Ok acc /\
    n_terms acc = (n_crops self * (n_crops self - 1))%Z /\
    Z.of_nat (length (terms acc)) = (n_crops self * (n_crops self - 1))%Z /\
    NoDup (map fst (terms acc)) /\
    (forall i j, In (i, j) (map fst (terms acc)) <->
                 (Z.of_nat i < n_crops self)%Z /\
                 (Z.of_nat j < n_crops self)%Z /\ i <> j) /\
    (forall i, ~ In (i, i) (map fst (terms acc))) /\
    (forall i j v, In (i, j, v) (terms acc) ->
       exists s_i t_j term,
         nth_error student_outs i = Some s_i /\
         nth_error teacher_outs j = Some t_j /\
         kl_div (log_softmax s_i) t_j = Ok term /\ item term = v) /\
    item (loss acc) = fold_left Rplus (map snd (terms acc)) 0 /\
    forward self s t epoch
    = Ok {| item := item (loss acc)
                    / IZR (n_crops self * (n_crops self - 1));
            scalar_leaves := scalar_leaves (loss acc) |}.
Proof.
  intros Hvalid.
  destruct (forward_acc_valid self s t epoch B Hvalid)
    as [temp [Hget [_ Hacc]]].
  pose proof (kl_div_blocks self s t epoch B Hvalid temp) as Hkl.
  destruct Hvalid as [Hn _ _ Hsr Htr _ _].
  set (n := Z.to_nat (n_crops self)) in *.
  assert (Hn' : n_crops self = Z.of_nat n) by (unfold n; lia).
  set (acc := fold_left (add_term (pair_term self s t temp B))
                        (crop_pairs n) acc0) in *.
  exists acc, temp,
    (map (fun i => student_block self s B i) (seq 0 n)),
    (map (fun j => teacher_block temp t B j) (seq 0 n)).
  assert (Hterms : terms acc
                   = map (fun p => (fst p, snd p,
                                    item (pair_term self s t temp B
                                                    (fst p) (snd p))))
                         (crop_pairs n)).
  { unfold acc. rewrite add_terms_terms. reflexivity. }
  assert (Hpairs : map fst (terms acc) = crop_pairs n).
  { rewrite Hterms, map_map. simpl.
    rewrite <- (map_id (crop_pairs n)) at 2.
    apply map_ext. intros [i j]. reflexivity. }
  assert (Hcount : Z.of_nat (n * (n - 1))
                   = (n_crops self * (n_crops self - 1))%Z)
    by (unfold n; nia).
  assert (Hnt : n_terms acc = (n_crops self * (n_crops self - 1))%Z).
  { unfold acc. rewrite add_terms_n_terms, crop_pairs_length. simpl.
    exact Hcount. }
  split; [exact Hget |].
  split.
  { rewrite Hn'. apply chunk_divisible; [lia |].
    unfold nrows in *. simpl. rewrite !length_map. exact Hsr. }
  split.
  { rewrite Hn'. apply chunk_divisible; [lia |].
    unfold nrows in *. simpl. rewrite !length_map. exact Htr. }
  split; [exact Hacc |].
  split; [exact Hnt |].
  split.
  { rewrite Hterms, length_map, crop_pairs_length. exact Hcount. }
  rewrite Hpairs.
  split; [apply crop_pairs_NoDup |].
  split.
  { intros i j. rewrite in_crop_pairs. unfold n. lia. }
  split.
  { intros i Hin. apply in_crop_pairs in Hin. lia. }
  split.
  { intros i j v Hin. rewrite Hterms in Hin.
    apply in_map_iff in Hin. destruct Hin as [[i' j'] [Heq Hin]].
    simpl in Heq. injection Heq as -> -> <-.
    apply in_crop_pairs in Hin. destruct Hin as [Hi [Hj Hij]].
    exists (student_block self s B i), (teacher_block temp t B j),
      (pair_term self s t temp B i j).
    rewrite !nth_error_map, !nth_error_seq.
    destruct (Nat.ltb_spec i n); [| lia].
    destruct (Nat.ltb_spec j n); [| lia].
    repeat split. apply Hkl; assumption. }
  split.
  { unfold acc at 1. rewrite add_terms_item_fold. rewrite Hterms, map_map.
    reflexivity. }
  unfold forward. rewrite Hacc. simpl. unfold true_div. rewrite Hnt.
  destruct (Z.eqb_spec (n_crops self * (n_crops self - 1)) 0) as [Hz | _];
    [nia | reflexivity].
Qed.

(** Witness of C7: the two crops of the example, one row and two classes
    each. *)
Lemma forward_adds_one_term_per_ordered_pair_witness :
  valid_shapes example_loss example_student example_teacher 0 1 /\
  exists acc temp student_outs teacher_outs,
    Np.getitem (teacher_temp_schedule example_loss) 0 = Ok temp /\
    chunk (div_scalar example_student (student_temp example_loss))
          (n_crops example_loss) = Ok student_outs /\
    chunk (detach (softmax (div_scalar example_teacher temp)))
          (n_crops example_loss) = Ok teacher_outs /\
    forward_acc example_loss example_student example_teacher 0 = Ok acc /\
    n_terms acc = (2 * (2 - 1))%Z /\
    Z.of_nat (length (terms acc)) = (2 * (2 - 1))%Z /\
    NoDup (map fst (terms acc)) /\
    (forall i j, In (i, j) (map fst (terms acc)) <->
                 (Z.of_nat i < 2)%Z /\ (Z.of_nat j < 2)%Z /\ i <> j) /\
    (forall i, ~ In (i, i) (map fst (terms acc))) /\
    (forall i j v, In (i, j, v) (terms acc) ->
       exists s_i t_j term,
         nth_error student_outs i = Some s_i /\
         nth_error teacher_outs j = Some t_j /\
         kl_div (log_softmax s_i) t_j = Ok term /\ item term = v) /\
    item (loss acc) = fold_left Rplus (map snd (terms acc)) 0 /\
    forward example_loss example_student example_teacher 0
    = Ok {| item := item (loss acc) / IZR (2 * (2 - 1));
            scalar_leaves := scalar_leaves (loss acc) |}.
Proof.
  assert (Hvalid : valid_shapes example_loss example_student
                                example_teacher 0 1)
    by (constructor; simpl; try lia; try reflexivity; repeat constructor).
  split; [exact Hvalid |].
  apply (forward_adds_one_term_per_ordered_pair
           example_loss example_student example_teacher 0 1 Hvalid).
Defined.

(** ** The epoch *)

(** C3 (amended).  With at least one crop, an epoch outside
    [-numEpochs, numEpochs) makes [forward] raise [IndexError]; an epoch in
    [0, numEpochs) reads [schedule[epoch]]; a negative epoch in
    [-numEpochs, 0) is not rejected: it reads from the end,
    [schedule[numEpochs + epoch]]. *)
Theorem forward_epoch_lookup
  (self : DistillLoss) (s t : Tensor) (epoch : Z) :
  (1 <= n_crops self)%Z ->
  let schedule := teacher_temp_schedule self in
  let E := Z.of_nat (length schedule) in
  ((epoch < - E \/ E <= epoch)%Z ->
   forward self s t epoch = Raise IndexError) /\
  ((0 <= epoch < E)%Z ->
   exists temp, Np.getitem schedule epoch = Ok temp /\
                nth_error schedule (Z.to_nat epoch) = Some temp) /\
  ((- E <= epoch < 0)%Z ->
   exists temp, Np.getitem schedule epoch = Ok temp /\
                nth_error schedule (Z.to_nat (E + epoch)) = Some temp).
Proof.
  intros Hn schedule E. repeat split.
  - intros Hout. unfold forward, forward_acc.
    destruct (chunk_Ok (div_scalar s (student_temp self)) (n_crops self) Hn)
      as [blocks [Hchunk _]].
    rewrite Hchunk. simpl.
    rewrite getitem_out_of_range by exact Hout. reflexivity.
  - intros Hin. apply getitem_in_range. exact Hin.
  - intros Hneg. rewrite Z.add_comm. apply getitem_negative. exact Hneg.
Qed.

(** Witness of C3 (amended): the two-epoch example at epochs 2, 1 and
    -1. *)
Lemma forward_epoch_lookup_witness :
  (1 <= n_crops example_loss)%Z /\
  forward example_loss (zeros 2 2 []) (zeros 2 2 []) 2 = Raise IndexError /\
  (exists temp, Np.getitem (teacher_temp_schedule example_loss) 1 = Ok temp /\
                nth_error (teacher_temp_schedule example_loss) (Z.to_nat 1)
                = Some temp) /\
  (exists temp,
     Np.getitem (teacher_temp_schedule example_loss) (-1) = Ok temp /\
                nth_error (teacher_temp_schedule example_loss)
                          (Z.to_nat (2 + -1)) = Some temp).
Proof.
  assert (Hn : (1 <= n_crops example_loss)%Z) by (simpl; lia).
  split; [exact Hn |].
  pose proof (forward_epoch_lookup example_loss (zeros 2 2 []) (zeros 2 2 []))
    as Hlookup.
  split; [| split].
  - apply (Hlookup 2%Z Hn). simpl. lia.
  - apply (Hlookup 1%Z Hn). simpl. lia.
  - apply (Hlookup (-1)%Z Hn). simpl. lia.
Defined.

(** C3, as stated, fails for a negative epoch: with a schedule of two
    epochs, epoch -1 raises nothing; the lookup reads the last entry,
    0.04, and [forward] returns the loss of epoch 1. *)
Lemma forward_negative_epoch_is_not_rejected :
  Np.getitem (teacher_temp_schedule example_loss) (-1) = Ok (4 / 100) /\
  exists v,
    forward example_loss
            (cat 2 [0%nat] (map fst [example_crop_a; example_crop_b]))
            (cat 2 [1%nat] (map snd [example_crop_a; example_crop_b])) (-1)
    = Ok v /\
    forward example_loss
            (cat 2 [0%nat] (map fst [example_crop_a; example_crop_b]))
            (cat 2 [1%nat] (map snd [example_crop_a; example_crop_b])) 1
    = Ok v.
Proof.
  split; [reflexivity |].
  eexists. split; run_model; reflexivity.
Qed.

(** ** The autograd graph of the loss *)

Section Autograd.

Lemma fold_result_Raise {A X : Type} (body : X -> A -> result A)
  (l : list X) (e : exn) :
  fold_left (fun st x => a <- st ;; body x a) l (Raise e) = Raise e.
Proof. induction l as [| x l IH]; [reflexivity | exact IH]. Qed.

(** A property of the loop state that every iteration keeps holds when the
    loop ends. *)
Lemma fold_result_invariant {A X : Type} (P : A -> Prop)
  (body : X -> A -> result A) (l : list X) (a a' : A) :
  (forall x b b', P b -> body x b = Ok b' -> P b') ->
  P a ->
  fold_left (fun st x => b <- st ;; body x b) l (Ok a) = Ok a' ->
  P a'.
Proof.
  intros Hbody. revert a.
  induction l as [| x l IH]; intros a Ha Hfold; simpl in Hfold.
  - injection Hfold as <-. exact Ha.
  - destruct (body x a) as [b | e] eqn:Hb.
    + apply (IH b); [apply (Hbody x a b Ha Hb) | exact Hfold].
    + rewrite fold_result_Raise in Hfold. discriminate Hfold.
Qed.

(** The blocks [chunk] returns are in the graph of the chunked tensor. *)
Lemma chunk_leaves (t : Tensor) (chunks : Z) (blocks : list Tensor) :
  chunk t chunks = Ok blocks ->
  Forall (fun b => grad_leaves b = grad_leaves t) blocks.
Proof.
  intros Hchunk.
  destruct (Z.leb_spec chunks 0) as [Hle | Hgt].
  - unfold chunk in Hchunk.
    destruct (Z.leb_spec chunks 0); [discriminate Hchunk | lia].
  - destruct (chunk_Ok t chunks) as [blocks' [Hchunk' [_ [_ Hblocks]]]];
      [lia |].
    rewrite Hchunk in Hchunk'. injection Hchunk' as <-.
    apply Forall_forall. intros b Hb.
    apply In_nth_error in Hb. destruct Hb as [i Hi].
    apply (Hblocks i b Hi).
Qed.

(** [F.kl_div] records its two arguments in the graph of its result. *)
Lemma kl_div_leaves (input target : Tensor) (term : Scalar) :
  kl_div input target = Ok term ->
  scalar_leaves term = grad_leaves input ++ grad_leaves target.
Proof.
  unfold kl_div. intros H.
  destruct (broadcast_dim (nrows input) (nrows target)); [| discriminate H].
  destruct (broadcast_dim (ncols input) (ncols target)); [| discriminate H].
  simpl in H. injection H as <-. reflexivity.
Qed.

Variables (student_outs teacher_outs : list Tensor) (leaves : list Leaf).
Hypothesis Hstudent :
  Forall (fun b => grad_leaves b = leaves) student_outs.
Hypothesis Hteacher :
  Forall (fun b => grad_leaves b = []) teacher_outs.

Lemma loop_body_leaves (i j : nat) (acc acc' : Acc) :
  incl (scalar_leaves (loss acc)) leaves ->
  loop_body student_outs teacher_outs i j acc = Ok acc' ->
  incl (scalar_leaves (loss acc')) leaves.
Proof.
  intros Hacc. unfold loop_body, tuple_getitem.
  destruct (i =? j)%nat; [intros H; injection H as <-; exact Hacc |].
  destruct (nth_error student_outs i) as [s_i |] eqn:Hs; [| discriminate].
  destruct (nth_error teacher_outs j) as [t_j |] eqn:Ht; [| discriminate].
  simpl.
  destruct (kl_div (log_softmax s_i) t_j) as [term |] eqn:Hkl;
    [| discriminate].
  simpl. intros H. injection H as <-. simpl.
  rewrite (kl_div_leaves _ _ _ Hkl). simpl.
  rewrite Forall_forall in Hstudent, Hteacher.
  rewrite (Hstudent s_i (nth_error_In _ _ Hs)).
  rewrite (Hteacher t_j (nth_error_In _ _ Ht)).
  rewrite app_nil_r.
  apply incl_app; [exact Hacc | apply incl_refl].
Qed.

Lemma outer_loop_leaves (n : nat) (acc acc' : Acc) :
  incl (scalar_leaves (loss acc)) leaves ->
  outer_loop student_outs teacher_outs n acc = Ok acc' ->
  incl (scalar_leaves (loss acc')) leaves.
Proof.
  unfold outer_loop. intros Hacc.
  apply (fold_result_invariant
           (fun a => incl (scalar_leaves (loss a)) leaves)); [| exact Hacc].
  intros i b b' Hb. unfold inner_loop.
  apply (fold_result_invariant
           (fun a => incl (scalar_leaves (loss a)) leaves)); [| exact Hb].
  intros j c c' Hc. apply loop_body_leaves. exact Hc.
Qed.

End Autograd.

(** Whenever [forward] returns, the graph of the loss holds leaves of the
    student outputs only. *)
Lemma forward_leaves_from_student
  (self : DistillLoss) (s t : Tensor) (epoch : Z) (v : Scalar) :
  forward self s t epoch = Ok v ->
  incl (scalar_leaves v) (grad_leaves s).
Proof.
  unfold forward. intros H.
  apply bind_Ok in H. destruct H as [acc [Hacc Hdiv]].
  unfold forward_acc in Hacc.
  apply bind_Ok in Hacc. destruct Hacc as [student_outs [Hs Hacc]].
  apply bind_Ok in Hacc. destruct Hacc as [temp [_ Hacc]].
  apply bind_Ok in Hacc. destruct Hacc as [teacher_outs [Ht Hloop]].
  apply chunk_leaves in Hs, Ht. simpl in Hs, Ht.
  unfold true_div in Hdiv.
  destruct (n_terms acc =? 0)%Z; [discriminate Hdiv |].
  injection Hdiv as <-. simpl.
  apply (outer_loop_leaves student_outs teacher_outs (grad_leaves s) Hs Ht
           (Z.to_nat (n_crops self)) acc0 acc); [| exact Hloop].
  simpl. intros l [].
Qed.

(** C5.  Autograd is modelled by the leaves of the graph each tensor
    carries: an operation unites the leaves of its arguments and
    [detach] drops them.  Whatever leaves the teacher outputs carry,
    whenever [forward] returns, every leaf in the graph of the loss is a
    leaf of the student outputs: nothing reaches the loss through the
    teacher probabilities.  On valid shapes [forward] does return, and the
    graph of the loss holds exactly the leaves of the student outputs. *)
Theorem forward_gradient_reaches_student_only
  (self : DistillLoss) (s t : Tensor) (epoch : Z) :
  (forall v, forward self s t epoch = Ok v ->
     forall l, In l (scalar_leaves v) -> In l (grad_leaves s)) /\
  (forall B, valid_shapes self s t epoch B ->
     exists v, forward self s t epoch = Ok v /\
       forall l, In l (scalar_leaves v) <-> In l (grad_leaves s)).
Proof.
  split.
  - intros v Hv l Hl. apply (forward_leaves_from_student _ _ _ _ _ Hv l Hl).
  - intros B Hvalid.
    destruct (forward_valid self s t epoch B Hvalid)
      as [temp [_ [_ Hforward]]].
    specialize (Hforward _ eq_refl).
    eexists. split; [exact Hforward |].
    intros l. split.
    + apply (forward_leaves_from_student _ _ _ _ _ Hforward l).
    + intros Hl. simpl. rewrite add_terms_leaves. simpl.
      apply in_flat_map. exists (0%nat, 1%nat).
      split; [| exact Hl].
      apply in_crop_pairs. destruct Hvalid as [Hn _ _ _ _ _ _]. lia.
Qed.

(** Witness of C5: the student outputs carry leaf 0, the teacher outputs
    leaf 1, and the loss carries leaf 0 only. *)
Lemma forward_gradient_reaches_student_only_witness :
  valid_shapes example_loss (zeros 2 2 [0%nat]) (zeros 2 2 [1%nat]) 0 1 /\
  exists v,
    forward example_loss (zeros 2 2 [0%nat]) (zeros 2 2 [1%nat]) 0 = Ok v /\
    forall l, In l (scalar_leaves v) <-> In l [0%nat].
Proof.
  assert (Hvalid : valid_shapes example_loss (zeros 2 2 [0%nat])
                                (zeros 2 2 [1%nat]) 0 1)
    by (constructor; simpl; try lia; try reflexivity; repeat constructor).
  split; [exact Hvalid |].
  apply (proj2 (forward_gradient_reaches_student_only
                  example_loss (zeros 2 2 [0%nat]) (zeros 2 2 [1%nat]) 0)
               1%nat Hvalid).
Defined.

(** ** The term of a pair: divergence, not cross-entropy *)

Lemma rsum_cons (x : R) (l : list R) : rsum (x :: l) = x + rsum l.
Proof. reflexivity. Qed.

Section CrossEntropy.

Lemma kl_row_cross_entropy (ls tp : list R) :
  length ls = length tp ->
  rsum (map2 kl_pointwise ls tp)
  = rsum (map2 (fun l p => - p * l) ls tp)
    - rsum (map (fun p => - xlogy p p) tp).
Proof.
  revert tp. unfold map2.
  induction ls as [| l ls IH]; intros [| p tp] Hlen; simpl in Hlen;
    try discriminate; simpl.
  - unfold rsum. simpl. lra.
  - rewrite !rsum_cons, (IH tp) by lia. unfold kl_pointwise. simpl. lra.
Qed.

(** What [F.kl_div] computes is the cross-entropy of the specification
    less the entropy of the teacher rows. *)
Lemma kl_batchmean_cross_entropy (ls tp : list (list R)) :
  Forall2 (fun l p => length l = length p) ls tp ->
  kl_batchmean ls tp
  = cross_entropy_batchmean ls tp - entropy_batchmean tp.
Proof.
  intros Hshape.
  unfold kl_batchmean, cross_entropy_batchmean, entropy_batchmean.
  rewrite <- (Forall2_length Hshape).
  assert (Hsum :
    rsum (map rsum (map2 (map2 kl_pointwise) ls tp))
    = rsum (map rsum (map2 (map2 (fun l p => - p * l)) ls tp))
      - rsum (map (fun row => rsum (map (fun p => - xlogy p p) row)) tp)).
  { unfold map2 at 1 3.
    induction Hshape as [| l p ls tp Hlen _ IH]; simpl.
    - unfold rsum. simpl. lra.
    - rewrite !rsum_cons, IH, (kl_row_cross_entropy l p Hlen). lra. }
  rewrite Hsum. unfold Rdiv. lra.
Qed.

End CrossEntropy.

Lemma Forall2_same_length {A B : Type} (K : nat) (la : list (list A))
  (lb : list (list B)) :
  length la = length lb ->
  Forall (fun r => length r = K) la ->
  Forall (fun r => length r = K) lb ->
  Forall2 (fun a b => length a = length b) la lb.
Proof.
  intros Hlen Ha. revert lb Hlen.
  induction Ha as [| a la Hra _ IH]; intros [| b lb] Hlen Hb;
    simpl in Hlen; try discriminate; constructor.
  - inversion Hb; subst. congruence.
  - apply IH; [lia | inversion Hb; assumption].
Qed.

(** On valid shapes every term the code adds is the cross-entropy of the
    specification less the entropy of the teacher block. *)
Lemma pair_term_cross_entropy (self : DistillLoss) (s t : Tensor)
  (epoch : Z) (temp : R) (B i j : nat) :
  valid_shapes self s t epoch B ->
  (i < Z.to_nat (n_crops self))%nat -> (j < Z.to_nat (n_crops self))%nat ->
  item (pair_term self s t temp B i j)
  = cross_entropy_batchmean
      (rows (log_softmax (student_block self s B i)))
      (rows (teacher_block temp t B j))
    - entropy_batchmean (rows (teacher_block temp t B j)).
Proof.
  intros [_ Hswf Htwf Hsr Htr Hc _] Hi Hj.
  unfold pair_term. simpl item.
  apply kl_batchmean_cross_entropy.
  apply (Forall2_same_length (ncols s)).
  - change (nrows (log_softmax (student_block self s B i))
            = nrows (teacher_block temp t B j)).
    unfold log_softmax, student_block, teacher_block.
    rewrite <- piece_map_rows.
    rewrite !nrows_piece; [reflexivity | |];
      unfold nrows; simpl; rewrite !length_map;
      [fold (nrows t); rewrite Htr | fold (nrows s); rewrite Hsr]; nia.
  - simpl. apply Forall_map, Forall_firstn_skipn, Forall_map.
    revert Hswf. apply Forall_impl. intros r Hr.
    rewrite log_softmax_row_length, length_map. exact Hr.
  - simpl. apply Forall_firstn_skipn, Forall_map, Forall_map.
    revert Htwf. apply Forall_impl. intros r Hr.
    rewrite softmax_row_length, length_map, Hc. exact Hr.
Qed.

Lemma half_softmax (x : R) : exp x / (exp x + (exp x + 0)) = / 2.
Proof. pose proof (exp_pos x). field. lra. Qed.

(** C1.  The code does not compute the term the claim describes.  For two
    crops of one row with two classes and all outputs zero, the teacher
    and student rows are both [1/2, 1/2]: [F.kl_div] gives 0 for each of
    the two pairs and [forward] returns 0, while the cross-entropy the
    comment in the code and the claim describe is [ln 2] for each pair. *)
Theorem forward_term_is_not_the_cross_entropy :
  exists acc,
    forward_acc example_loss (zeros 2 2 [0%nat]) (zeros 2 2 [1%nat]) 0
    = Ok acc /\
    terms acc = [(0%nat, 1%nat, 0); (1%nat, 0%nat, 0)] /\
    forward example_loss (zeros 2 2 [0%nat]) (zeros 2 2 [1%nat]) 0
    = Ok {| item := 0; scalar_leaves := [0%nat; 0%nat] |} /\
    cross_entropy_batchmean
      (rows (log_softmax
               (student_block example_loss (zeros 2 2 [0%nat]) 1 0)))
      (rows (teacher_block (7 / 100) (zeros 2 2 [1%nat]) 1 1))
    = ln 2 /\
    ln 2 <> 0.
Proof.
  eexists. split; [run_model; reflexivity |].
  split; [| split; [| split]].
  - run_model. rewrite !Rdiv_0_l, !half_softmax.
    destruct (Req_dec_T (/ 2) 0) as [Hz | _]; [lra |].
    simpl INR. repeat f_equal; lra.
  - run_model. rewrite !Rdiv_0_l, !half_softmax.
    destruct (Req_dec_T (/ 2) 0) as [Hz | _]; [lra |].
    simpl INR. do 2 f_equal. lra.
  - run_model. rewrite !Rdiv_0_l, !half_softmax.
    rewrite (ln_Rinv 2) by lra. simpl INR. lra.
  - apply ln_neq_0; lra.
Qed.

(** * Further properties of [forward] and [__init__] *)

(** ** Calls that cannot return a loss *)

Section Failures.

(** A loop whose iterations all succeed ends with a state. *)
Lemma fold_result_Ok {A X : Type} (body : X -> A -> result A)
  (l : list X) (a : A) :
  (forall x b, In x l -> exists b', body x b = Ok b') ->
  exists a', fold_left (fun st x => b <- st ;; body x b) l (Ok a) = Ok a'.
Proof.
  revert a. induction l as [| x l IH]; intros a Hbody; simpl.
  - exists a. reflexivity.
  - destruct (Hbody x a (or_introl eq_refl)) as [b Hb]. rewrite Hb.
    apply IH. intros y c Hy. apply Hbody. right. exact Hy.
Qed.

(** The loops stop at the first pair [(0, k)] whose term cannot be
    computed. *)
Lemma outer_loop_raises_in_first_row (so to : list Tensor) (n k : nat)
  (acc : Acc) (e : exn) :
  (k < n)%nat ->
  (forall j b, (j < k)%nat -> exists b', loop_body so to 0 j b = Ok b') ->
  (forall b, loop_body so to 0 k b = Raise e) ->
  outer_loop so to n acc = Raise e.
Proof.
  intros Hk Hbefore Hat.
  assert (Hinner : inner_loop so to n 0 acc = Raise e).
  { unfold inner_loop.
    assert (Hseq : seq 0 n = seq 0 k ++ seq k (S (n - k - 1))).
    { rewrite <- seq_app. f_equal. lia. }
    rewrite Hseq, fold_left_app.
    destruct (fold_result_Ok (loop_body so to 0) (seq 0 k) acc) as [b Hb].
    - intros j c Hj. apply in_seq in Hj. apply Hbefore. lia.
    - rewrite Hb. simpl. rewrite Hat. apply fold_result_Raise. }
  unfold outer_loop. destruct n as [| n']; [lia |].
  simpl. rewrite Hinner. apply fold_result_Raise.
Qed.

End Failures.

Lemma getitem_wraps_Ok (arr : list R) (k : Z) :
  (- Z.of_nat (length arr) <= k < Z.of_nat (length arr))%Z ->
  exists v, Np.getitem arr k = Ok v.
Proof.
  intros Hk. destruct (Z.lt_ge_cases k 0) as [Hneg | Hpos].
  - destruct (getitem_negative arr k) as [v [Hget _]];
      [lia | exists v; exact Hget].
  - destruct (getitem_in_range arr k) as [v [Hget _]];
      [lia | exists v; exact Hget].
Qed.

Lemma single_crop_division_raises
  (self : DistillLoss) (s t : Tensor) (epoch : Z) :
  n_crops self = 1%Z ->
  (- Z.of_nat (length (teacher_temp_schedule self)) <= epoch
   < Z.of_nat (length (teacher_temp_schedule self)))%Z ->
  forward self s t epoch = Raise ZeroDivisionError.
Proof.
  intros Hn He. unfold forward, forward_acc. rewrite Hn.
  destruct (chunk_Ok (div_scalar s (student_temp self)) 1) as [so [Hso _]];
    [lia |].
  rewrite Hso. simpl.
  destruct (getitem_wraps_Ok _ _ He) as [temp Hget]. rewrite Hget. simpl.
  destruct (chunk_Ok (detach (softmax (div_scalar t temp))) 1)
    as [to [Hto _]]; [lia |].
  rewrite Hto. reflexivity.
Qed.

(** X1.  With a single crop there is no pair of distinct crops: for an
    epoch in [-numEpochs, numEpochs) no term is added and the final
    division of the int 0 by the int 0 raises [ZeroDivisionError]. *)
Theorem forward_single_crop_raises
  (self : DistillLoss) (s t : Tensor) (epoch : Z) :
  n_crops self = 1%Z ->
  (- Z.of_nat (length (teacher_temp_schedule self)) <= epoch
   < Z.of_nat (length (teacher_temp_schedule self)))%Z ->
  forward self s t epoch = Raise ZeroDivisionError.
Proof. apply single_crop_division_raises. Qed.

(** Witness of X1: one crop, epoch 1 of two. *)
Lemma forward_single_crop_raises_witness :
  n_crops example_single_crop = 1%Z /\
  (- Z.of_nat (length (teacher_temp_schedule example_single_crop)) <= 1
   < Z.of_nat (length (teacher_temp_schedule example_single_crop)))%Z /\
  forward example_single_crop (zeros 2 2 [0%nat]) (zeros 2 2 [1%nat]) 1
  = Raise ZeroDivisionError.
Proof.
  split; [reflexivity |]. split; [simpl; lia |].
  apply forward_single_crop_raises; [reflexivity | simpl; lia].
Defined.

Lemma epoch_out_of_range_raises
  (self : DistillLoss) (s t : Tensor) (epoch : Z) :
  (1 <= n_crops self)%Z ->
  (epoch < - Z.of_nat (length (teacher_temp_schedule self))
   \/ Z.of_nat (length (teacher_temp_schedule self)) <= epoch)%Z ->
  forward self s t epoch = Raise IndexError.
Proof.
  intros Hn Hout. unfold forward, forward_acc.
  destruct (chunk_Ok (div_scalar s (student_temp self)) (n_crops self) Hn)
    as [blocks [Hchunk _]].
  rewrite Hchunk. simpl.
  rewrite getitem_out_of_range by exact Hout. reflexivity.
Qed.

(** X2.  [forward] returns a loss only for at least two crops and an epoch
    in [-numEpochs, numEpochs). *)
Theorem forward_returns_only_with_two_crops
  (self : DistillLoss) (s t : Tensor) (epoch : Z) (v : Scalar) :
  forward self s t epoch = Ok v ->
  (2 <= n_crops self)%Z /\
  (- Z.of_nat (length (teacher_temp_schedule self)) <= epoch
   < Z.of_nat (length (teacher_temp_schedule self)))%Z.
Proof.
  intros Hv.
  assert (Hn : (1 <= n_crops self)%Z).
  { destruct (Z.lt_ge_cases (n_crops self) 1) as [Hlt | Hge]; [| exact Hge].
    unfold forward, forward_acc, chunk in Hv.
    destruct (Z.leb_spec (n_crops self) 0); [discriminate Hv | lia]. }
  assert (He : (- Z.of_nat (length (teacher_temp_schedule self)) <= epoch
                < Z.of_nat (length (teacher_temp_schedule self)))%Z).
  { destruct (Z.lt_ge_cases epoch
                (- Z.of_nat (length (teacher_temp_schedule self))));
      [| destruct (Z.lt_ge_cases epoch
                     (Z.of_nat (length (teacher_temp_schedule self))));
         [lia |]].
    - rewrite (epoch_out_of_range_raises self s t epoch Hn) in Hv by lia.
      discriminate Hv.
    - rewrite (epoch_out_of_range_raises self s t epoch Hn) in Hv by lia.
      discriminate Hv. }
  split; [| exact He].
  destruct (Z.eq_dec (n_crops self) 1) as [H1 | Hne]; [| lia].
  rewrite (single_crop_division_raises self s t epoch H1 He) in Hv.
  discriminate Hv.
Qed.

(** Witness of X2: the call of the two-crop example returns. *)
Lemma forward_returns_only_with_two_crops_witness :
  exists v,
    forward example_loss (zeros 2 2 [0%nat]) (zeros 2 2 [1%nat]) 0 = Ok v /\
    (2 <= n_crops example_loss)%Z /\
    (- Z.of_nat (length (teacher_temp_schedule example_loss)) <= 0
     < Z.of_nat (length (teacher_temp_schedule example_loss)))%Z.
Proof.
  assert (H : exists v,
             forward example_loss (zeros 2 2 [0%nat]) (zeros 2 2 [1%nat]) 0
             = Ok v)
    by (eexists; run_model; reflexivity).
  destruct H as [v Hv]. exists v. split; [exact Hv |].
  exact (forward_returns_only_with_two_crops _ _ _ _ _ Hv).
Defined.

(** ** Shapes that broadcast and shapes that do not *)

Section Broadcast.

Lemma broadcast_dim_Ok (a b : nat) :
  broadcastable a b -> exists c, broadcast_dim a b = Ok c.
Proof.
  unfold broadcastable, broadcast_dim. intros H.
  destruct (Nat.eqb_spec a b); [eexists; reflexivity |].
  destruct (Nat.eqb_spec a 1); [eexists; reflexivity |].
  destruct (Nat.eqb_spec b 1); [eexists; reflexivity | lia].
Qed.

Lemma broadcast_dim_Raise (a b : nat) :
  ~ broadcastable a b -> broadcast_dim a b = Raise RuntimeError.
Proof.
  unfold broadcastable, broadcast_dim. intros H.
  destruct (Nat.eqb_spec a b); [tauto |].
  destruct (Nat.eqb_spec a 1); [tauto |].
  destruct (Nat.eqb_spec b 1); [tauto | reflexivity].
Qed.

Lemma broadcastable_dec (a b : nat) :
  {broadcastable a b} + {~ broadcastable a b}.
Proof.
  unfold broadcastable.
  destruct (Nat.eq_dec a b); [left; tauto |].
  destruct (Nat.eq_dec a 1); [left; tauto |].
  destruct (Nat.eq_dec b 1); [left; tauto | right; tauto].
Qed.

(** [F.kl_div] returns when both axes broadcast and raises otherwise. *)
Lemma kl_div_Ok (input target : Tensor) :
  broadcastable (nrows input) (nrows target) ->
  broadcastable (ncols input) (ncols target) ->
  exists term, kl_div input target = Ok term.
Proof.
  intros Hr Hc. unfold kl_div.
  destruct (broadcast_dim_Ok _ _ Hr) as [nr ->].
  destruct (broadcast_dim_Ok _ _ Hc) as [nc ->].
  simpl. eexists. reflexivity.
Qed.

Lemma kl_div_Raise (input target : Tensor) :
  ~ (broadcastable (nrows input) (nrows target) /\
     broadcastable (ncols input) (ncols target)) ->
  kl_div input target = Raise RuntimeError.
Proof.
  intros H. unfold kl_div.
  destruct (broadcastable_dec (nrows input) (nrows target)) as [Hr | Hr].
  - destruct (broadcast_dim_Ok _ _ Hr) as [nr ->]. simpl.
    rewrite broadcast_dim_Raise by tauto. reflexivity.
  - rewrite broadcast_dim_Raise by exact Hr. reflexivity.
Qed.

Lemma nrows_map_rows (f : list R -> list R) (t : Tensor) :
  nrows (map_rows f t) = nrows t.
Proof. unfold nrows, map_rows. simpl. apply length_map. Qed.

Variables (self : DistillLoss) (s t : Tensor) (epoch : Z) (Bs Bt : nat).

Let n : nat := Z.to_nat (n_crops self).

Hypothesis Hn : (2 <= n_crops self)%Z.
Hypothesis Hsr : nrows s = (n * Bs)%nat.
Hypothesis Htr : nrows t = (n * Bt)%nat.
Hypothesis He :
  (- Z.of_nat (length (teacher_temp_schedule self)) <= epoch
   < Z.of_nat (length (teacher_temp_schedule self)))%Z.

(** The loops of a call whose inputs chunk into [n] blocks each. *)
Lemma forward_acc_blocks :
  exists temp,
    Np.getitem (teacher_temp_schedule self) epoch = Ok temp /\
    forward_acc self s t epoch
    = outer_loop
        (map (fun i => student_block self s Bs i) (seq 0 n))
        (map (fun j => teacher_block temp t Bt j) (seq 0 n))
        n acc0.
Proof.
  destruct (getitem_wraps_Ok _ _ He) as [temp Hget].
  exists temp. split; [exact Hget |].
  assert (Hn' : n_crops self = Z.of_nat n) by (unfold n; lia).
  unfold forward_acc. rewrite Hn'.
  rewrite (chunk_divisible _ n Bs)
    by (try (unfold div_scalar; rewrite nrows_map_rows; exact Hsr); lia).
  simpl. rewrite Hget. simpl.
  rewrite (chunk_divisible _ n Bt)
    by (try (unfold nrows in *; simpl; rewrite !length_map; exact Htr);
        lia).
  simpl. rewrite Nat2Z.id. reflexivity.
Qed.

Lemma nrows_student_block (i : nat) :
  (i < n)%nat -> nrows (log_softmax (student_block self s Bs i)) = Bs.
Proof.
  intros Hi. unfold log_softmax, student_block.
  rewrite nrows_map_rows, nrows_piece; [reflexivity |].
  unfold div_scalar. rewrite nrows_map_rows, Hsr. nia.
Qed.

Lemma nrows_teacher_block (temp : R) (j : nat) :
  (j < n)%nat -> nrows (teacher_block temp t Bt j) = Bt.
Proof.
  intros Hj. unfold teacher_block.
  rewrite nrows_piece; [reflexivity |].
  unfold nrows in *. simpl. rewrite !length_map, Htr. nia.
Qed.

Lemma forward_blocks_broadcast_returns :
  broadcastable Bs Bt -> broadcastable (ncols s) (ncols t) ->
  exists v, forward self s t epoch = Ok v.
Proof.
  intros Hr Hc.
  destruct forward_acc_blocks as [temp [_ Hacc]].
  set (so := map (fun i => student_block self s Bs i) (seq 0 n)) in *.
  set (to := map (fun j => teacher_block temp t Bt j) (seq 0 n)) in *.
  set (term := fun i j =>
         match kl_div (log_softmax (student_block self s Bs i))
                      (teacher_block temp t Bt j) with
         | Ok x => x
         | Raise _ => mkScalar 0 []
         end).
  assert (Hloop : outer_loop so to n acc0
                  = Ok (fold_left (add_term term) (crop_pairs n) acc0)).
  { apply outer_loop_Ok. intros i j Hi Hj _.
    exists (student_block self s Bs i), (teacher_block temp t Bt j).
    unfold so, to. rewrite !nth_error_map, !nth_error_seq.
    destruct (Nat.ltb_spec i n); [| lia].
    destruct (Nat.ltb_spec j n); [| lia].
    split; [reflexivity | split; [reflexivity |]].
    unfold term.
    destruct (kl_div_Ok (log_softmax (student_block self s Bs i))
                        (teacher_block temp t Bt j)) as [x Hx].
    - rewrite nrows_student_block, nrows_teacher_block by assumption.
      exact Hr.
    - exact Hc.
    - rewrite Hx. reflexivity. }
  unfold forward. rewrite Hacc, Hloop. simpl. unfold true_div.
  rewrite add_terms_n_terms, crop_pairs_length. simpl.
  destruct (Z.eqb_spec (Z.of_nat (n * (n - 1))) 0) as [Hz | _];
    [unfold n in Hz; nia | eexists; reflexivity].
Qed.

Lemma forward_blocks_mismatch_raises :
  ~ (broadcastable Bs Bt /\ broadcastable (ncols s) (ncols t)) ->
  forward self s t epoch = Raise RuntimeError.
Proof.
  intros Hbad.
  destruct forward_acc_blocks as [temp [_ Hacc]].
  unfold forward. rewrite Hacc.
  rewrite (outer_loop_raises_in_first_row _ _ n 1 acc0 RuntimeError);
    [reflexivity | unfold n; lia | |].
  - intros j b Hj. assert (j = 0%nat) as -> by lia.
    exists b. apply loop_body_same.
  - intros b. unfold loop_body, tuple_getitem. cbn [Nat.eqb].
    rewrite !nth_error_map, !nth_error_seq.
    destruct (Nat.ltb_spec 0 n); [| unfold n in *; lia].
    destruct (Nat.ltb_spec 1 n); [| unfold n in *; lia].
    simpl. rewrite kl_div_Raise; [reflexivity |].
    rewrite nrows_student_block, nrows_teacher_block by assumption.
    exact Hbad.
Qed.

End Broadcast.

(** X3.  For at least two crops, an epoch in [-numEpochs, numEpochs),
    student outputs of [n_crops * Bs] rows and teacher outputs of
    [n_crops * Bt] rows, [forward] returns a loss exactly when the block
    sizes [Bs], [Bt] and the two numbers of classes broadcast (are equal,
    or one of them is 1); otherwise it raises [RuntimeError]. *)
Theorem forward_returns_iff_blocks_broadcast
  (self : DistillLoss) (s t : Tensor) (epoch : Z) (Bs Bt : nat) :
  (2 <= n_crops self)%Z ->
  nrows s = (Z.to_nat (n_crops self) * Bs)%nat ->
  nrows t = (Z.to_nat (n_crops self) * Bt)%nat ->
  (- Z.of_nat (length (teacher_temp_schedule self)) <= epoch
   < Z.of_nat (length (teacher_temp_schedule self)))%Z ->
  (broadcastable Bs Bt /\ broadcastable (ncols s) (ncols t) ->
   exists v, forward self s t epoch = Ok v) /\
  (~ (broadcastable Bs Bt /\ broadcastable (ncols s) (ncols t)) ->
   forward self s t epoch = Raise RuntimeError).
Proof.
  intros Hn Hsr Htr He. split.
  - intros [Hr Hc].
    apply (forward_blocks_broadcast_returns self s t epoch Bs Bt); assumption.
  - apply (forward_blocks_mismatch_raises self s t epoch Bs Bt); assumption.
Qed.

(** Witness of X3: one class against two broadcasts, three classes
    against two do not. *)
Lemma forward_returns_iff_blocks_broadcast_witness :
  (2 <= n_crops example_loss)%Z /\
  (- Z.of_nat (length (teacher_temp_schedule example_loss)) <= 0
   < Z.of_nat (length (teacher_temp_schedule example_loss)))%Z /\
  (broadcastable 1 1 /\
   broadcastable (ncols (zeros 2 1 [])) (ncols (zeros 2 2 []))) /\
  (exists v, forward example_loss (zeros 2 1 []) (zeros 2 2 []) 0 = Ok v) /\
  ~ (broadcastable 1 1 /\
     broadcastable (ncols (zeros 2 3 [])) (ncols (zeros 2 2 []))) /\
  forward example_loss (zeros 2 3 []) (zeros 2 2 []) 0 = Raise RuntimeError.
Proof.
  assert (Hn : (2 <= n_crops example_loss)%Z) by (simpl; lia).
  assert (He : (- Z.of_nat (length (teacher_temp_schedule example_loss)) <= 0
                < Z.of_nat (length (teacher_temp_schedule example_loss)))%Z)
    by (simpl; lia).
  assert (Hgood : broadcastable 1 1 /\
                  broadcastable (ncols (zeros 2 1 []))
                                (ncols (zeros 2 2 [])))
    by (unfold broadcastable; simpl; lia).
  assert (Hbad : ~ (broadcastable 1 1 /\
                    broadcastable (ncols (zeros 2 3 []))
                                  (ncols (zeros 2 2 []))))
    by (unfold broadcastable; simpl; lia).
  split; [exact Hn | split; [exact He | split; [exact Hgood |]]].
  split; [| split; [exact Hbad |]].
  - apply (proj1 (forward_returns_iff_blocks_broadcast
                    example_loss (zeros 2 1 []) (zeros 2 2 []) 0 1 1
                    Hn eq_refl eq_refl He) Hgood).
  - apply (proj2 (forward_returns_iff_blocks_broadcast
                    example_loss (zeros 2 3 []) (zeros 2 2 []) 0 1 1
                    Hn eq_refl eq_refl He) Hbad).
Defined.

(** ** Fewer rows than crops *)

Section FewRows.

(** With fewer rows than chunks every row is a block of its own. *)
Lemma chunk_fewer_rows (t : Tensor) (chunks : Z) :
  (1 <= nrows t)%nat -> (Z.of_nat (nrows t) < chunks)%Z ->
  chunk t chunks = Ok (map (fun i => piece t (i * 1) 1) (seq 0 (nrows t))).
Proof.
  intros Hrows Hlt.
  rewrite <- (chunk_divisible t (nrows t) 1) by lia.
  unfold chunk.
  destruct (Z.leb_spec chunks 0); [lia |].
  destruct (Z.leb_spec (Z.of_nat (nrows t)) 0); [lia |].
  assert (H1 : ((Z.of_nat (nrows t) + chunks - 1) / chunks = 1)%Z).
  { symmetry. apply (Z.div_unique_pos _ _ _ (Z.of_nat (nrows t) - 1)); lia. }
  assert (H2 : ((Z.of_nat (nrows t) + Z.of_nat (nrows t) - 1)
                / Z.of_nat (nrows t) = 1)%Z).
  { symmetry. apply (Z.div_unique_pos _ _ _ (Z.of_nat (nrows t) - 1)); lia. }
  rewrite H1, H2. reflexivity.
Qed.

End FewRows.

(** X4.  When both outputs have the same number [R] of rows with
    [1 <= R < n_crops] (and classes that broadcast), chunking yields only
    [R] blocks and [forward] raises [IndexError] at the first missing
    teacher block. *)
Theorem forward_fewer_rows_than_crops_raises
  (self : DistillLoss) (s t : Tensor) (epoch : Z) :
  (1 <= nrows s)%nat -> nrows t = nrows s ->
  (Z.of_nat (nrows s) < n_crops self)%Z ->
  broadcastable (ncols s) (ncols t) ->
  (- Z.of_nat (length (teacher_temp_schedule self)) <= epoch
   < Z.of_nat (length (teacher_temp_schedule self)))%Z ->
  forward self s t epoch = Raise IndexError.
Proof.
  intros Hrows Ht Hlt Hc He.
  destruct (getitem_wraps_Ok _ _ He) as [temp Hget].
  unfold forward, forward_acc.
  set (X := div_scalar s (student_temp self)).
  assert (HX : nrows X = nrows s) by apply nrows_map_rows.
  rewrite (chunk_fewer_rows X) by lia.
  simpl. rewrite Hget. simpl.
  set (Y := detach (softmax (div_scalar t temp))).
  assert (HY : nrows Y = nrows s).
  { unfold Y, nrows in *. simpl. rewrite !length_map. exact Ht. }
  rewrite (chunk_fewer_rows Y) by lia.
  simpl. rewrite HX, HY.
  rewrite (outer_loop_raises_in_first_row _ _ _ (nrows s) acc0 IndexError);
    [reflexivity | lia | |].
  - intros j b Hj. unfold loop_body, tuple_getitem.
    destruct (0 =? j)%nat; [exists b; reflexivity |].
    rewrite !nth_error_map, !nth_error_seq.
    destruct (Nat.ltb_spec 0 (nrows s)); [| lia].
    destruct (Nat.ltb_spec j (nrows s)); [| lia].
    simpl.
    destruct (kl_div_Ok (log_softmax (piece X 0 1)) (piece Y (j * 1) 1))
      as [x Hx].
    + unfold log_softmax. rewrite nrows_map_rows, !nrows_piece by lia.
      left. reflexivity.
    + exact Hc.
    + rewrite Hx. simpl. eexists. reflexivity.
  - intros b. unfold loop_body, tuple_getitem.
    destruct (Nat.eqb_spec 0 (nrows s)); [lia |].
    rewrite !nth_error_map, !nth_error_seq.
    destruct (Nat.ltb_spec 0 (nrows s)); [| lia].
    destruct (Nat.ltb_spec (nrows s) (nrows s)); [lia |].
    reflexivity.
Qed.

(** Witness of X4: one row for the two crops of the example. *)
Lemma forward_fewer_rows_than_crops_raises_witness :
  (1 <= nrows (zeros 1 2 []))%nat /\
  nrows (zeros 1 2 []) = nrows (zeros 1 2 []) /\
  (Z.of_nat (nrows (zeros 1 2 [])) < n_crops example_loss)%Z /\
  broadcastable (ncols (zeros 1 2 [])) (ncols (zeros 1 2 [])) /\
  (- Z.of_nat (length (teacher_temp_schedule example_loss)) <= 0
   < Z.of_nat (length (teacher_temp_schedule example_loss)))%Z /\
  forward example_loss (zeros 1 2 []) (zeros 1 2 []) 0 = Raise IndexError.
Proof.
  assert (H1 : (1 <= nrows (zeros 1 2 []))%nat)
    by (unfold nrows; simpl; lia).
  assert (H2 : (Z.of_nat (nrows (zeros 1 2 [])) < n_crops example_loss)%Z)
    by (unfold nrows; simpl; lia).
  assert (H3 : broadcastable (ncols (zeros 1 2 [])) (ncols (zeros 1 2 [])))
    by (left; reflexivity).
  assert (H4 : (- Z.of_nat (length (teacher_temp_schedule example_loss)) <= 0
                < Z.of_nat (length (teacher_temp_schedule example_loss)))%Z)
    by (simpl; lia).
  repeat (split; [first [assumption | reflexivity] |]).
  apply (forward_fewer_rows_than_crops_raises
           example_loss (zeros 1 2 []) (zeros 1 2 []) 0 H1 eq_refl H2 H3 H4).
Defined.

(** ** Rows that do not divide into the crops *)

Section Uneven.

Lemma chunk_sizes (nr : nat) (chunks : Z) :
  (1 <= chunks)%Z -> (1 <= nr)%nat ->
  (1 <= chunk_size nr chunks)%nat /\
  (nr <= Z.to_nat chunks * chunk_size nr chunks)%nat /\
  (Z.to_nat chunks * (chunk_size nr chunks - 1) < nr)%nat /\
  (1 <= chunk_count nr chunks)%nat /\
  (Z.of_nat (chunk_count nr chunks) <= chunks)%Z /\
  ((chunk_count nr chunks - 1) * chunk_size nr chunks < nr)%nat /\
  (nr <= chunk_count nr chunks * chunk_size nr chunks)%nat.
Proof.
  intros Hc Hr. unfold chunk_count. 
  set (c := chunk_size nr chunks).
  assert (Hq : (chunks * Z.of_nat c <= Z.of_nat nr + chunks - 1
                < chunks * Z.of_nat c + chunks)%Z).
  { unfold c, chunk_size.
    pose proof (Z.div_mod (Z.of_nat nr + chunks - 1) chunks) as Hdm.
    pose proof (Z.mod_pos_bound (Z.of_nat nr + chunks - 1) chunks).
    assert (0 <= (Z.of_nat nr + chunks - 1) / chunks)%Z
      by (apply Z.div_pos; lia).
    rewrite Z2Nat.id by assumption. lia. }
  assert (Hc1 : (1 <= c)%nat) by nia.
  cbv zeta.
  set (q := ((Z.of_nat nr + Z.of_nat c - 1) / Z.of_nat c)%Z).
  assert (Hm : (Z.of_nat c * q <= Z.of_nat nr + Z.of_nat c - 1
                < Z.of_nat c * q + Z.of_nat c)%Z).
  { unfold q.
    pose proof (Z.div_mod (Z.of_nat nr + Z.of_nat c - 1) (Z.of_nat c)) as Hdm.
    pose proof (Z.mod_pos_bound (Z.of_nat nr + Z.of_nat c - 1) (Z.of_nat c)).
    lia. }
  assert (Hq1 : (1 <= q)%Z) by nia.
  repeat split; try nia.
Qed.

Lemma chunk_uneven (x : Tensor) (chunks : Z) :
  (1 <= chunks)%Z -> (1 <= nrows x)%nat ->
  chunk x chunks
  = Ok (map (uneven_block x chunks) (seq 0 (chunk_count (nrows x) chunks))).
Proof.
  intros Hc Hr.
  destruct (chunk_sizes (nrows x) chunks Hc Hr)
    as [Hc1 [Hup [Hlow [Hm1 [Hmn [Hlo Hhi]]]]]].
  unfold chunk.
  destruct (Z.leb_spec chunks 0) as [Hle | _]; [lia |].
  fold (chunk_size (nrows x) chunks).
  set (c := chunk_size (nrows x) chunks) in *.
  set (m := chunk_count (nrows x) chunks) in *.
  assert (Hsz : ((Z.of_nat (nrows x) + chunks - 1) / chunks = Z.of_nat c)%Z).
  { unfold c, chunk_size. rewrite Z2Nat.id; [reflexivity |].
    apply Z.div_pos; lia. }
  rewrite Hsz.
  destruct (Z.eqb_spec (Z.of_nat c) 0) as [Hz | _]; [lia |]. cbn [andb].
  destruct (split_Ok x c Hc1) as [m' [Hm1' [Hlo' [Hhi' [Hstrict Hsplit]]]]].
  assert (Hmm : m' = m) by nia. subst m'.
  rewrite Hsplit. f_equal.
  assert (Hseq : seq 0 m = seq 0 (m - 1) ++ [(m - 1)%nat]).
  { replace m with (S (m - 1)) at 1 by lia. apply seq_S. }
  rewrite Hseq, map_app. f_equal.
  - apply map_ext_in. intros i Hi. apply in_seq in Hi.
    unfold uneven_block. fold c. fold m.
    destruct (Nat.ltb_spec (S i) m); [reflexivity | lia].
  - simpl. unfold uneven_block. fold c. fold m.
    destruct (Nat.ltb_spec (S (m - 1)) m); [lia |].
    reflexivity.
Qed.

Lemma nrows_uneven_block (x : Tensor) (chunks : Z) (i : nat) :
  (1 <= chunks)%Z -> (1 <= nrows x)%nat ->
  (i < chunk_count (nrows x) chunks)%nat ->
  nrows (uneven_block x chunks i)
  = if (S i <? chunk_count (nrows x) chunks)%nat
    then chunk_size (nrows x) chunks
    else last_chunk_size (nrows x) chunks.
Proof.
  intros Hc Hr Hi.
  destruct (chunk_sizes (nrows x) chunks Hc Hr)
    as [Hc1 [Hup [Hlow [Hm1 [Hmn [Hlo Hhi]]]]]].
  unfold uneven_block, last_chunk_size in *.
  destruct (Nat.ltb_spec (S i) (chunk_count (nrows x) chunks)).
  - apply nrows_piece. nia.
  - apply nrows_piece.
    assert (i = chunk_count (nrows x) chunks - 1)%nat as -> by lia. lia.
Qed.

End Uneven.

Section NotDivisible.

Variables (self : DistillLoss) (s t : Tensor) (epoch : Z).

Let n : nat := Z.to_nat (n_crops self).
Let c : nat := chunk_size (nrows s) (n_crops self).
Let m : nat := chunk_count (nrows s) (n_crops self).
Let r : nat := last_chunk_size (nrows s) (n_crops self).

Hypothesis Hn : (2 <= n_crops self)%Z.
Hypothesis Hrows : (1 <= nrows s)%nat.
Hypothesis Htr : nrows t = nrows s.
Hypothesis He :
  (- Z.of_nat (length (teacher_temp_schedule self)) <= epoch
   < Z.of_nat (length (teacher_temp_schedule self)))%Z.

Let X : Tensor := div_scalar s (student_temp self).
Local Abbreviation Y temp := (detach (softmax (div_scalar t temp))).

Lemma nrows_scaled_student : nrows X = nrows s.
Proof. apply nrows_map_rows. Qed.

Lemma nrows_teacher_probs (temp : R) : nrows (Y temp) = nrows s.
Proof.
  unfold nrows in *. simpl. rewrite !length_map. exact Htr.
Qed.

(** The loops of a call on [nrows s >= 1] rows run on [m] blocks. *)
Lemma forward_acc_uneven :
  exists temp,
    Np.getitem (teacher_temp_schedule self) epoch = Ok temp /\
    forward_acc self s t epoch
    = outer_loop (map (uneven_block X (n_crops self)) (seq 0 m))
                 (map (uneven_block (Y temp) (n_crops self)) (seq 0 m))
                 n acc0.
Proof.
  destruct (getitem_wraps_Ok _ _ He) as [temp Hget].
  exists temp. split; [exact Hget |].
  unfold forward_acc. fold X.
  rewrite (chunk_uneven X) by (rewrite ?nrows_scaled_student; lia).
  simpl. rewrite Hget. simpl.
  rewrite (chunk_uneven (Y temp)) by (rewrite ?nrows_teacher_probs; lia).
  simpl. rewrite nrows_scaled_student, nrows_teacher_probs. reflexivity.
Qed.

Lemma sizes_not_divisible :
  (1 <= c)%nat /\ (1 <= m)%nat /\ (m <= n)%nat /\ (1 <= r <= c)%nat /\
  (m = 1%nat -> r = c).
Proof.
  destruct (chunk_sizes (nrows s) (n_crops self)) as
    [Hc1 [Hup [Hlow [Hm1 [Hmn [Hlo Hhi]]]]]]; [lia | exact Hrows |].
  fold c in Hc1, Hup, Hlow, Hlo, Hhi. fold m in Hm1, Hmn, Hlo, Hhi.
  fold n in Hup, Hlow.
  unfold r, last_chunk_size. fold c. fold m.
  repeat split; try lia; try nia.
Qed.

Lemma nth_student_block (i : nat) :
  (i < m)%nat ->
  exists b, nth_error (map (uneven_block X (n_crops self)) (seq 0 m)) i
            = Some b /\
            nrows (log_softmax b) = (if (S i <? m)%nat then c else r) /\
            ncols (log_softmax b) = ncols s.
Proof.
  intros Hi. eexists. split; [| split].
  - rewrite nth_error_map, nth_error_seq.
    destruct (Nat.ltb_spec i m); [reflexivity | lia].
  - unfold log_softmax. rewrite nrows_map_rows.
    rewrite nrows_uneven_block; rewrite ?nrows_scaled_student;
      [reflexivity | lia | lia | exact Hi].
  - unfold uneven_block. destruct (_ <? _)%nat; reflexivity.
Qed.

Lemma nth_teacher_block (temp : R) (j : nat) :
  (j < m)%nat ->
  exists b, nth_error (map (uneven_block (Y temp) (n_crops self)) (seq 0 m)) j
            = Some b /\
            nrows b = (if (S j <? m)%nat then c else r) /\
            ncols b = ncols t.
Proof.
  intros Hj. eexists. split; [| split].
  - rewrite nth_error_map, nth_error_seq.
    destruct (Nat.ltb_spec j m); [reflexivity | lia].
  - rewrite nrows_uneven_block; rewrite ?nrows_teacher_probs;
      [reflexivity | lia | lia | exact Hj].
  - unfold uneven_block. destruct (_ <? _)%nat; reflexivity.
Qed.

(** A last block of one row, [n_crops] blocks: every pair broadcasts. *)
Lemma forward_uneven_returns :
  broadcastable (ncols s) (ncols t) -> r = 1%nat -> m = n ->
  exists v, forward self s t epoch = Ok v.
Proof.
  intros Hcols Hr1 Hmn.
  destruct forward_acc_uneven as [temp [_ Hacc]].
  set (so := map (uneven_block X (n_crops self)) (seq 0 m)) in *.
  set (to := map (uneven_block (Y temp) (n_crops self)) (seq 0 m)) in *.
  set (term := fun i j =>
         match kl_div (log_softmax (uneven_block X (n_crops self) i))
                      (uneven_block (Y temp) (n_crops self) j) with
         | Ok x => x
         | Raise _ => mkScalar 0 []
         end).
  assert (Hloop : outer_loop so to n acc0
                  = Ok (fold_left (add_term term) (crop_pairs n) acc0)).
  { apply outer_loop_Ok. intros i j Hi Hj _.
    destruct (nth_student_block i) as [bi [Hbi [Hri Hci]]]; [lia |].
    destruct (nth_teacher_block temp j) as [bj [Hbj [Hrj Hcj]]]; [lia |].
    exists bi, bj. split; [exact Hbi | split; [exact Hbj |]].
    unfold so, to in *. rewrite nth_error_map, nth_error_seq in Hbi, Hbj.
    destruct (Nat.ltb_spec i m); [| lia].
    destruct (Nat.ltb_spec j m); [| lia].
    simpl in Hbi, Hbj.
    injection Hbi as Hbi. injection Hbj as Hbj.
    unfold term. rewrite Hbi, Hbj.
    destruct (kl_div_Ok (log_softmax bi) bj) as [x Hx].
    - rewrite Hri, Hrj. unfold broadcastable.
      destruct (S i <? m)%nat, (S j <? m)%nat; lia.
    - rewrite Hci, Hcj. exact Hcols.
    - rewrite Hx. reflexivity. }
  unfold forward. rewrite Hacc, Hloop. simpl. unfold true_div.
  rewrite add_terms_n_terms, crop_pairs_length. simpl.
  destruct (Z.eqb_spec (Z.of_nat (n * (n - 1))) 0) as [Hz | _];
    [unfold n in Hz; nia | eexists; reflexivity].
Qed.

(** A last block that is neither full nor a single row does not broadcast
    against the first block. *)
Lemma forward_uneven_shape_error :
  broadcastable (ncols s) (ncols t) -> r <> 1%nat -> r <> c ->
  forward self s t epoch = Raise RuntimeError.
Proof.
  intros Hcols Hr1 Hrc.
  destruct sizes_not_divisible as [Hc1 [Hm1 [Hmn [Hrb Hone]]]].
  assert (Hm2 : (2 <= m)%nat).
  { destruct (Nat.eq_dec m 1) as [H1 | H1]; [apply Hone in H1 |]; lia. }
  destruct forward_acc_uneven as [temp [_ Hacc]].
  unfold forward. rewrite Hacc.
  rewrite (outer_loop_raises_in_first_row _ _ n (m - 1) acc0 RuntimeError);
    [reflexivity | lia | |].
  - intros j b Hj. unfold loop_body, tuple_getitem.
    destruct (0 =? j)%nat; [exists b; reflexivity |].
    destruct (nth_student_block 0) as [b0 [-> [Hr0 Hc0]]]; [lia |].
    destruct (nth_teacher_block temp j) as [bj [-> [Hrj Hcj]]]; [lia |].
    simpl.
    destruct (kl_div_Ok (log_softmax b0) bj) as [x Hx].
    + rewrite Hr0, Hrj.
      destruct (Nat.ltb_spec 1 m); [| lia].
      destruct (Nat.ltb_spec (S j) m); [| lia].
      left. reflexivity.
    + rewrite Hc0, Hcj. exact Hcols.
    + rewrite Hx. simpl. eexists. reflexivity.
  - intros b. unfold loop_body, tuple_getitem.
    destruct (Nat.eqb_spec 0 (m - 1)); [lia |].
    destruct (nth_student_block 0) as [b0 [-> [Hr0 Hc0]]]; [lia |].
    destruct (nth_teacher_block temp (m - 1)) as [bj [-> [Hrj Hcj]]]; [lia |].
    simpl. rewrite kl_div_Raise; [reflexivity |].
    rewrite Hr0, Hrj.
    destruct (Nat.ltb_spec 1 m); [| lia].
    destruct (Nat.ltb_spec (S (m - 1)) m); [lia |].
    unfold broadcastable. lia.
Qed.

(** Fewer blocks than crops, all of which broadcast: the first missing
    teacher block stops the call. *)
Lemma forward_uneven_index_error :
  broadcastable (ncols s) (ncols t) -> r = 1%nat \/ r = c -> (m < n)%nat ->
  forward self s t epoch = Raise IndexError.
Proof.
  intros Hcols Hr Hlt.
  destruct sizes_not_divisible as [Hc1 [Hm1 [Hmn [Hrb Hone]]]].
  destruct forward_acc_uneven as [temp [_ Hacc]].
  unfold forward. rewrite Hacc.
  rewrite (outer_loop_raises_in_first_row _ _ n m acc0 IndexError);
    [reflexivity | lia | |].
  - intros j b Hj. unfold loop_body, tuple_getitem.
    destruct (0 =? j)%nat; [exists b; reflexivity |].
    destruct (nth_student_block 0) as [b0 [-> [Hr0 Hc0]]]; [lia |].
    destruct (nth_teacher_block temp j) as [bj [-> [Hrj Hcj]]]; [lia |].
    simpl.
    destruct (kl_div_Ok (log_softmax b0) bj) as [x Hx].
    + rewrite Hr0, Hrj. unfold broadcastable.
      destruct (1 <? m)%nat, (S j <? m)%nat; lia.
    + rewrite Hc0, Hcj. exact Hcols.
    + rewrite Hx. simpl. eexists. reflexivity.
  - intros b. unfold loop_body, tuple_getitem.
    destruct (Nat.eqb_spec 0 m); [lia |].
    destruct (nth_student_block 0) as [b0 [-> _]]; [lia |].
    rewrite nth_error_map, nth_error_seq.
    destruct (Nat.ltb_spec m m); [lia |].
    reflexivity.
Qed.

(** Numbers of classes that do not broadcast stop the call at the pair
    [(0, 1)]. *)
Lemma forward_uneven_classes_mismatch :
  ~ broadcastable (ncols s) (ncols t) ->
  exists e, forward self s t epoch = Raise e.
Proof.
  intros Hbad.
  destruct sizes_not_divisible as [Hc1 [Hm1 [Hmn [Hrb Hone]]]].
  destruct forward_acc_uneven as [temp [_ Hacc]].
  unfold forward. rewrite Hacc.
  assert (Hat : exists e, forall b,
             loop_body
               (map (uneven_block X (n_crops self)) (seq 0 m))
               (map (uneven_block (Y temp) (n_crops self)) (seq 0 m))
               0 1 b = Raise e).
  { unfold loop_body, tuple_getitem. cbn [Nat.eqb].
    destruct (nth_student_block 0) as [b0 [-> [_ Hc0]]]; [lia |].
    destruct (Nat.lt_ge_cases 1 m) as [Hlt | Hge].
    - destruct (nth_teacher_block temp 1) as [b1 [-> [_ Hc1']]];
        [exact Hlt |].
      exists RuntimeError. intros b. simpl.
      rewrite kl_div_Raise; [reflexivity |].
      rewrite Hc0, Hc1'. tauto.
    - exists IndexError. intros b.
      rewrite (nth_error_map _ 1), nth_error_seq.
      destruct (Nat.ltb_spec 1 m); [lia | reflexivity]. }
  destruct Hat as [e Hat]. exists e.
  rewrite (outer_loop_raises_in_first_row _ _ n 1 acc0 e);
    [reflexivity | unfold n; lia | | exact Hat].
  intros j b Hj. assert (j = 0%nat) as -> by lia.
  exists b. reflexivity.
Qed.

(** The blocks [chunk] returns hold every row once, in order. *)
Lemma chunk_uneven_rows :
  exists blocks,
    chunk X (n_crops self) = Ok blocks /\
    concat (map rows blocks) = rows X /\
    map nrows blocks = repeat c (m - 1) ++ [r].
Proof.
  destruct sizes_not_divisible as [Hc1 [Hm1 [Hmn [Hrb Hone]]]].
  destruct (chunk_Ok X (n_crops self)) as [blocks [Hch [Hcat _]]]; [lia |].
  exists blocks. split; [exact Hch | split; [exact Hcat |]].
  rewrite (chunk_uneven X) in Hch by (rewrite ?nrows_scaled_student; lia).
  injection Hch as <-.
  rewrite nrows_scaled_student. fold m.
  assert (Hseq : seq 0 m = seq 0 (m - 1) ++ [(m - 1)%nat]).
  { replace m with (S (m - 1)) at 1 by lia. apply seq_S. }
  rewrite Hseq, !map_app, !map_map. f_equal.
  - transitivity (map (fun _ : nat => c) (seq 0 (m - 1)));
      [| rewrite map_const, length_seq; reflexivity].
    apply map_ext_in. intros i Hi. apply in_seq in Hi.
    rewrite nrows_uneven_block; rewrite ?nrows_scaled_student; try lia.
    fold m. destruct (Nat.ltb_spec (S i) m); [reflexivity | lia].
  - simpl. rewrite nrows_uneven_block; rewrite ?nrows_scaled_student; try lia.
    fold m. destruct (Nat.ltb_spec (S (m - 1)) m); [lia | reflexivity].
Qed.

End NotDivisible.

Lemma not_divisible_rows (nr : nat) (chunks : Z) :
  (2 <= chunks)%Z -> (Z.of_nat nr mod chunks <> 0)%Z ->
  (1 <= nr)%nat /\
  (last_chunk_size nr chunks = chunk_size nr chunks ->
   Z.of_nat (chunk_count nr chunks) < chunks)%Z.
Proof.
  intros Hc Hmod.
  assert (Hr : (1 <= nr)%nat).
  { destruct nr; [| lia]. exfalso. apply Hmod. apply Z.mod_0_l. lia. }
  split; [exact Hr |].
  destruct (chunk_sizes nr chunks) as
    [Hc1 [Hup [Hlow [Hm1 [Hmn [Hlo Hhi]]]]]]; [lia | exact Hr |].
  unfold last_chunk_size. intros Hfull.
  destruct (Z.eq_dec (Z.of_nat (chunk_count nr chunks)) chunks) as [Heq | Hne];
    [| lia].
  exfalso. apply Hmod.
  assert (Hnr : Z.of_nat nr = (Z.of_nat (chunk_size nr chunks) * chunks)%Z)
    by nia.
  rewrite Hnr. apply Z.mod_mul. lia.
Qed.

(** C4, as stated, fails: three rows do not divide into two crops, and
    [forward] returns a loss, computed on a block of two rows and a block of
    one row. *)
Lemma forward_three_rows_two_crops_returns :
  (Z.of_nat (nrows (zeros 3 1 [0%nat])) mod n_crops example_loss <> 0)%Z /\
  exists v,
    forward example_loss (zeros 3 1 [0%nat]) (zeros 3 1 [1%nat]) 0 = Ok v /\
    exists b0 b1,
      chunk (zeros 3 1 [0%nat]) (n_crops example_loss) = Ok [b0; b1] /\
      nrows b0 = 2%nat /\ nrows b1 = 1%nat.
Proof.
  split; [discriminate |].
  eexists. split; [run_model; reflexivity |].
  eexists. eexists. split; [run_model; reflexivity |].
  split; reflexivity.
Qed.

(** C4 (amended).  [forward] makes no divisibility check.  For at least
    two crops and student and teacher outputs of the same number [R] of
    rows, [R] not divisible by [n_crops]: [chunk] cuts the student rows
    into [m] blocks, [m - 1] of [c = ceil(R / n_crops)] rows and a last one
    of the [1 <= r <= c] rows that are left, [m <= n_crops], dropping and
    padding no row; when the last block is full there are fewer than
    [n_crops] blocks.  The call returns a loss, computed on unequal blocks,
    exactly when [r = 1], [m = n_crops], the numbers of classes broadcast
    and the epoch is in [-numEpochs, numEpochs); every other call fails.
    For classes that broadcast and such an epoch, the failure is
    [RuntimeError] when [r] is neither 1 nor [c], and [IndexError] when
    [r] is 1 or [c] and [m < n_crops]. *)
Theorem forward_rows_not_divisible
  (self : DistillLoss) (s t : Tensor) (epoch : Z) :
  (2 <= n_crops self)%Z ->
  nrows t = nrows s ->
  (Z.of_nat (nrows s) mod n_crops self <> 0)%Z ->
  let c := chunk_size (nrows s) (n_crops self) in
  let m := chunk_count (nrows s) (n_crops self) in
  let r := last_chunk_size (nrows s) (n_crops self) in
  let classes_broadcast := broadcastable (ncols s) (ncols t) in
  let epoch_in_range :=
    (- Z.of_nat (length (teacher_temp_schedule self)) <= epoch
     < Z.of_nat (length (teacher_temp_schedule self)))%Z in
  (exists blocks,
     chunk (div_scalar s (student_temp self)) (n_crops self) = Ok blocks /\
     concat (map rows blocks) = rows (div_scalar s (student_temp self)) /\
     map nrows blocks = repeat c (m - 1) ++ [r]) /\
  (1 <= r <= c)%nat /\ (1 <= Z.of_nat m <= n_crops self)%Z /\
  (r = c -> (Z.of_nat m < n_crops self)%Z) /\
  ((exists v, forward self s t epoch = Ok v) <->
   r = 1%nat /\ Z.of_nat m = n_crops self /\
   classes_broadcast /\ epoch_in_range) /\
  (~ (r = 1%nat /\ Z.of_nat m = n_crops self /\
      classes_broadcast /\ epoch_in_range) ->
   exists e, forward self s t epoch = Raise e) /\
  (classes_broadcast -> epoch_in_range -> r <> 1%nat /\ r <> c ->
   forward self s t epoch = Raise RuntimeError) /\
  (classes_broadcast -> epoch_in_range ->
   (r = 1%nat \/ r = c) /\ (Z.of_nat m < n_crops self)%Z ->
   forward self s t epoch = Raise IndexError).
Proof.
  intros Hn Htr Hmod c m r classes_broadcast epoch_in_range.
  destruct (not_divisible_rows (nrows s) (n_crops self) Hn Hmod)
    as [Hrows Hfull].
  destruct (sizes_not_divisible self s t Hn Hrows Htr)
    as [Hc1 [Hm1 [Hmn [Hrb _]]]].
  fold c in Hc1, Hrb, Hfull. fold m in Hm1, Hmn, Hfull. fold r in Hrb, Hfull.
  assert (Hshape : classes_broadcast -> epoch_in_range ->
                   r <> 1%nat /\ r <> c ->
                   forward self s t epoch = Raise RuntimeError).
  { intros Hcols He [Hr1 Hrc].
    apply (forward_uneven_shape_error self s t epoch); assumption. }
  assert (Hindex : classes_broadcast -> epoch_in_range ->
                   (r = 1%nat \/ r = c) /\ (Z.of_nat m < n_crops self)%Z ->
                   forward self s t epoch = Raise IndexError).
  { intros Hcols He [Hr Hlt].
    apply (forward_uneven_index_error self s t epoch); try assumption.
    fold m. lia. }
  assert (Hreturns : r = 1%nat /\ Z.of_nat m = n_crops self /\
                     classes_broadcast /\ epoch_in_range ->
                     exists v, forward self s t epoch = Ok v).
  { intros [Hr1 [Hfullm [Hcols He]]].
    apply (forward_uneven_returns self s t epoch); try assumption.
    fold m. lia. }
  assert (Hfails : ~ (r = 1%nat /\ Z.of_nat m = n_crops self /\
                      classes_broadcast /\ epoch_in_range) ->
                   exists e, forward self s t epoch = Raise e).
  { intros Hnot.
    destruct (Z_lt_ge_dec epoch
                (- Z.of_nat (length (teacher_temp_schedule self))))
      as [Hlow | Hlow].
    { exists IndexError. apply epoch_out_of_range_raises; lia. }
    destruct (Z_lt_ge_dec epoch
                (Z.of_nat (length (teacher_temp_schedule self))))
      as [Hhigh | Hhigh].
    2: { exists IndexError. apply epoch_out_of_range_raises; lia. }
    assert (He : epoch_in_range) by (unfold epoch_in_range; lia).
    destruct (broadcastable_dec (ncols s) (ncols t)) as [Hcols | Hcols].
    2: { apply (forward_uneven_classes_mismatch self s t epoch);
         assumption. }
    destruct (Nat.eq_dec r 1) as [Hr1 | Hr1].
    - exists IndexError. apply Hindex; try assumption.
      split; [left; exact Hr1 |].
      destruct (Z.eq_dec (Z.of_nat m) (n_crops self)) as [Heq | Hne];
        [exfalso; apply Hnot; tauto | lia].
    - destruct (Nat.eq_dec r c) as [Hrc | Hrc].
      + exists IndexError. apply Hindex; try assumption.
        split; [right; exact Hrc | apply Hfull; exact Hrc].
      + exists RuntimeError. apply Hshape; try assumption. tauto. }
  assert (Hdec : (r = 1%nat /\ Z.of_nat m = n_crops self /\
                  classes_broadcast /\ epoch_in_range) \/
                 ~ (r = 1%nat /\ Z.of_nat m = n_crops self /\
                    classes_broadcast /\ epoch_in_range)).
  { unfold classes_broadcast, epoch_in_range.
    destruct (Nat.eq_dec r 1); [| right; tauto].
    destruct (Z.eq_dec (Z.of_nat m) (n_crops self)); [| right; tauto].
    destruct (broadcastable_dec (ncols s) (ncols t)); [| right; tauto].
    destruct (Z_lt_ge_dec epoch
                (- Z.of_nat (length (teacher_temp_schedule self))));
      [right; lia |].
    destruct (Z_lt_ge_dec epoch
                (Z.of_nat (length (teacher_temp_schedule self))));
      [left; repeat split; (assumption || lia) | right; lia]. }
  split; [apply (chunk_uneven_rows self s t Hn Hrows Htr) |].
  split; [exact Hrb |]. split; [lia |]. split; [exact Hfull |].
  split; [| split; [exact Hfails | split; [exact Hshape | exact Hindex]]].
  split; [| exact Hreturns].
  intros [v Hv]. destruct Hdec as [Hyes | Hno]; [exact Hyes |].
  destruct (Hfails Hno) as [e He']. rewrite He' in Hv. discriminate Hv.
Qed.

(** Witness of C4: five rows, one row and three rows for two crops. *)
Lemma forward_rows_not_divisible_witness :
  ((2 <= n_crops example_loss)%Z /\
   (Z.of_nat (nrows (zeros 5 2 [])) mod n_crops example_loss <> 0)%Z /\
   (Z.of_nat (nrows (zeros 1 2 [])) mod n_crops example_loss <> 0)%Z /\
   (Z.of_nat (nrows (zeros 3 2 [])) mod n_crops example_loss <> 0)%Z /\
   broadcastable 2 2 /\
   (- Z.of_nat (length (teacher_temp_schedule example_loss)) <= 0
    < Z.of_nat (length (teacher_temp_schedule example_loss)))%Z) /\
  forward example_loss (zeros 5 2 []) (zeros 5 2 []) 0 = Raise RuntimeError /\
  forward example_loss (zeros 1 2 []) (zeros 1 2 []) 0 = Raise IndexError /\
  exists v, forward example_loss (zeros 3 2 []) (zeros 3 2 []) 0 = Ok v.
Proof.
  assert (Hn : (2 <= n_crops example_loss)%Z) by (simpl; lia).
  assert (H5 : (Z.of_nat (nrows (zeros 5 2 [])) mod n_crops example_loss
                <> 0)%Z) by discriminate.
  assert (H1 : (Z.of_nat (nrows (zeros 1 2 [])) mod n_crops example_loss
                <> 0)%Z) by discriminate.
  assert (H3 : (Z.of_nat (nrows (zeros 3 2 [])) mod n_crops example_loss
                <> 0)%Z) by discriminate.
  assert (Hc : broadcastable 2 2) by (left; reflexivity).
  assert (He : (- Z.of_nat (length (teacher_temp_schedule example_loss)) <= 0
                < Z.of_nat (length (teacher_temp_schedule example_loss)))%Z)
    by (simpl; lia).
  split; [repeat (split; [assumption |]); exact He |].
  split; [| split].
  - apply (forward_rows_not_divisible
             example_loss (zeros 5 2 []) (zeros 5 2 []) 0 Hn eq_refl H5);
      [exact Hc | exact He |].
    vm_compute. split; discriminate.
  - apply (forward_rows_not_divisible
             example_loss (zeros 1 2 []) (zeros 1 2 []) 0 Hn eq_refl H1);
      [exact Hc | exact He |].
    vm_compute. split; [left; reflexivity | reflexivity].
  - apply (forward_rows_not_divisible
             example_loss (zeros 3 2 []) (zeros 3 2 []) 0 Hn eq_refl H3).
    split; [vm_compute; reflexivity |].
    split; [vm_compute; reflexivity |].
    split; [exact Hc | exact He].
Defined.

(** ** The schedule [__init__] builds *)

Section Schedule.

Variables (w E n : Z) (a b T : R).

Lemma init_Raise :
  ~ (0 <= w <= E)%Z -> init w E n a b T = Raise ValueError.
Proof.
  intros Hbad. unfold init, Np.linspace.
  destruct (Z.ltb_spec w 0) as [Hneg | Hpos]; [reflexivity |].
  simpl. unfold Np.ones.
  destruct (Z.ltb_spec (E - w) 0) as [_ | Hge]; [reflexivity | lia].
Qed.

Lemma init_Ok_range (self : DistillLoss) :
  init w E n a b T = Ok self ->
  (0 <= w <= E)%Z /\ length (teacher_temp_schedule self) = Z.to_nat E.
Proof.
  intros Hinit.
  assert (HwE : (0 <= w <= E)%Z).
  { destruct (Z_le_dec 0 w) as [H0 | H0];
      [destruct (Z_le_dec w E) as [H1 | H1]; [lia |] |];
      rewrite init_Raise in Hinit by lia; discriminate Hinit. }
  split; [exact HwE |].
  destruct (init_Ok w E n a b T) as [ramp [_ [Hlen Hinit']]]; [lia | lia |].
  rewrite Hinit' in Hinit. injection Hinit as <-. simpl.
  rewrite length_app, length_map, repeat_length. lia.
Qed.

(** Entry [k] of the schedule in closed form. *)
Lemma schedule_entry (self : DistillLoss) (k : nat) (v : R) :
  init w E n a b T = Ok self ->
  nth_error (teacher_temp_schedule self) k = Some v ->
  (0 <= w <= E)%Z /\ (Z.of_nat k < E)%Z /\
  ((Z.of_nat k < w)%Z /\ v = a + INR k * ((b - a) / IZR (w - 1))
   \/ (w <= Z.of_nat k)%Z /\ v = b).
Proof.
  intros Hinit Hk.
  destruct (init_Ok_range self Hinit) as [HwE _].
  destruct (init_Ok w E n a b T) as [ramp [Hramp [Hlen Hinit']]];
    [lia | lia |].
  rewrite Hinit' in Hinit. injection Hinit as <-. simpl in Hk.
  assert (Hklen : lt k (length (ramp ++ map (fun x => x * b)
                                         (repeat 1 (Z.to_nat (E - w))))))
    by (apply nth_error_Some; rewrite Hk; discriminate).
  rewrite length_app, length_map, repeat_length in Hklen.
  split; [exact HwE | split; [lia |]].
  destruct (Nat.lt_ge_cases k (length ramp)) as [Hlt | Hge].
  - left. split; [lia |].
    rewrite nth_error_app1 in Hk by exact Hlt.
    rewrite (linspace_nth a b w ramp k Hramp) in Hk by lia.
    congruence.
  - right. split; [lia |].
    rewrite nth_error_app2, nth_error_map in Hk by exact Hge.
    rewrite (nth_error_repeat 1) in Hk by lia.
    simpl in Hk. injection Hk as <-. lra.
Qed.


End Schedule.

(** X5.  The constructor succeeds exactly when
    [0 <= warmup_teacher_temp_epochs <= n_epochs]: it then stores the
    student temperature and the number of crops and a schedule of
    [n_epochs] entries; otherwise it raises [ValueError]. *)
Theorem init_succeeds_iff (w E n : Z) (a b T : R) :
  ((0 <= w <= E)%Z ->
   exists self,
     init w E n a b T = Ok self /\
     student_temp self = T /\ n_crops self = n /\
     length (teacher_temp_schedule self) = Z.to_nat E) /\
  (~ (0 <= w <= E)%Z -> init w E n a b T = Raise ValueError).
Proof.
  split; [| apply init_Raise].
  intros HwE.
  destruct (init_Ok w E n a b T) as [ramp [_ [Hlen Hinit]]]; [lia | lia |].
  eexists. split; [exact Hinit |]. simpl.
  repeat split.
  rewrite length_app, length_map, repeat_length. lia.
Qed.

(** Witness of X5: no warm-up and three epochs; a negative warm-up. *)
Lemma init_succeeds_iff_witness :
  (0 <= 0 <= 3)%Z /\
  (exists self,
     init 0 3 2 (7 / 100) (4 / 100) (1 / 10) = Ok self /\
     student_temp self = 1 / 10 /\ n_crops self = 2%Z /\
     length (teacher_temp_schedule self) = Z.to_nat 3) /\
  ~ (0 <= -1 <= 3)%Z /\
  init (-1) 3 2 (7 / 100) (4 / 100) (1 / 10) = Raise ValueError.
Proof.
  assert (H1 : (0 <= 0 <= 3)%Z) by lia.
  assert (H2 : ~ (0 <= -1 <= 3)%Z) by lia.
  split; [exact H1 | split; [| split; [exact H2 |]]].
  - apply (proj1 (init_succeeds_iff 0 3 2 (7 / 100) (4 / 100) (1 / 10)) H1).
  - apply (proj2 (init_succeeds_iff (-1) 3 2 (7 / 100) (4 / 100) (1 / 10)) H2).
Defined.





(** ** The epoch, once more *)

(** [forward] reads the epoch through the schedule lookup only. *)
Lemma forward_epoch_ext (self : DistillLoss) (s t : Tensor) (e1 e2 : Z) :
  Np.getitem (teacher_temp_schedule self) e1
  = Np.getitem (teacher_temp_schedule self) e2 ->
  forward self s t e1 = forward self s t e2.
Proof.
  intros Hget. unfold forward, forward_acc. rewrite Hget. reflexivity.
Qed.

(** X8.  Once the warm-up is over the loss does not depend on the epoch:
    for an object the constructor built, two epochs in
    [warmup_teacher_temp_epochs, n_epochs) give the same result. *)
Theorem forward_constant_after_warmup
  (w E n : Z) (a b T : R) (self : DistillLoss) (s t : Tensor) (e1 e2 : Z) :
  init w E n a b T = Ok self ->
  (w <= e1 < E)%Z -> (w <= e2 < E)%Z ->
  forward self s t e1 = forward self s t e2.
Proof.
  intros Hinit H1 H2. apply forward_epoch_ext.
  assert (Hlookup : forall e, (w <= e < E)%Z ->
            Np.getitem (teacher_temp_schedule self) e = Ok b).
  { intros e He.
    destruct (init_Ok_range w E n a b T self Hinit) as [HwE Hlen].
    destruct (getitem_in_range (teacher_temp_schedule self) e)
      as [v [Hget Hnth]]; [lia |].
    destruct (schedule_entry w E n a b T self _ v Hinit Hnth)
      as [_ [_ [[Hlt _] | [_ ->]]]]; [lia | exact Hget]. }
  rewrite (Hlookup e1 H1), (Hlookup e2 H2). reflexivity.
Qed.

(** Witness of X8: epochs 1 and 2 of three, after one warm-up epoch. *)
Lemma forward_constant_after_warmup_witness :
  exists self,
    init 1 3 2 (7 / 100) (4 / 100) (1 / 10) = Ok self /\
    (1 <= 1 < 3)%Z /\ (1 <= 2 < 3)%Z /\
    forward self (zeros 2 2 [0%nat]) (zeros 2 2 [1%nat]) 1
    = forward self (zeros 2 2 [0%nat]) (zeros 2 2 [1%nat]) 2.
Proof.
  assert (Hinit : exists self,
             init 1 3 2 (7 / 100) (4 / 100) (1 / 10) = Ok self)
    by (eexists; run_model; reflexivity).
  destruct Hinit as [self Hinit]. exists self.
  assert (H1 : (1 <= 1 < 3)%Z) by lia.
  assert (H2 : (1 <= 2 < 3)%Z) by lia.
  split; [exact Hinit | split; [exact H1 | split; [exact H2 |]]].
  apply (forward_constant_after_warmup
           1 3 2 (7 / 100) (4 / 100) (1 / 10) self _ _ 1 2 Hinit H1 H2).
Defined.

(** X9.  A negative epoch is an alias: for an epoch in [-numEpochs, 0)
    [forward] gives the result of the epoch [epoch + numEpochs]. *)
Theorem forward_negative_epoch_alias
  (self : DistillLoss) (s t : Tensor) (epoch : Z) :
  (- Z.of_nat (length (teacher_temp_schedule self)) <= epoch < 0)%Z ->
  forward self s t epoch
  = forward self s t (epoch + Z.of_nat (length (teacher_temp_schedule self))).
Proof.
  intros He. apply forward_epoch_ext.
  destruct (getitem_negative (teacher_temp_schedule self) epoch He)
    as [v [Hget Hnth]].
  rewrite Hget. symmetry. apply getitem_nth; [lia | exact Hnth].
Qed.

(** Witness of X9: epoch -2 of the two-epoch example is epoch 0. *)
Lemma forward_negative_epoch_alias_witness :
  (- Z.of_nat (length (teacher_temp_schedule example_loss)) <= -2 < 0)%Z /\
  forward example_loss (zeros 2 2 [0%nat]) (zeros 2 2 [1%nat]) (-2)
  = forward example_loss (zeros 2 2 [0%nat]) (zeros 2 2 [1%nat])
            (-2 + Z.of_nat (length (teacher_temp_schedule example_loss))).
Proof.
  assert (He : (- Z.of_nat (length (teacher_temp_schedule example_loss))
                <= -2 < 0)%Z) by (simpl; lia).
  split; [exact He |].
  apply (forward_negative_epoch_alias example_loss _ _ (-2) He).
Defined.

(** ** What the terms are *)

(** X10.  On valid shapes every term [forward] adds for a pair [(i, j)] is
    the batch mean of the cross-entropy of teacher block [j] against
    student block [i] less the batch mean of the entropy of teacher block
    [j]. *)
Theorem forward_terms_are_cross_entropy_less_entropy
  (self : DistillLoss) (s t : Tensor) (epoch : Z) (B : nat) :
  valid_shapes self s t epoch B ->
  exists temp acc,
    Np.getitem (teacher_temp_schedule self) epoch = Ok temp /\
    forward_acc self s t epoch = Ok acc /\
    forall i j v, In (i, j, v) (terms acc) ->
      v = cross_entropy_batchmean
            (rows (log_softmax (student_block self s B i)))
            (rows (teacher_block temp t B j))
          - entropy_batchmean (rows (teacher_block temp t B j)).
Proof.
  intros Hvalid.
  destruct (forward_acc_valid self s t epoch B Hvalid)
    as [temp [Hget [_ Hacc]]].
  exists temp. eexists. split; [exact Hget | split; [exact Hacc |]].
  intros i j v Hin.
  rewrite add_terms_terms in Hin. simpl in Hin.
  apply in_map_iff in Hin. destruct Hin as [[i' j'] [Heq Hin]].
  simpl in Heq. injection Heq as -> -> <-.
  apply in_crop_pairs in Hin. destruct Hin as [Hi [Hj _]].
  apply (pair_term_cross_entropy self s t epoch temp B i j Hvalid Hi Hj).
Qed.

(** Witness of X10: two crops of one row with two classes. *)
Lemma forward_terms_are_cross_entropy_less_entropy_witness :
  valid_shapes example_loss (zeros 2 2 [0%nat]) (zeros 2 2 [1%nat]) 0 1 /\
  exists temp acc,
    Np.getitem (teacher_temp_schedule example_loss) 0 = Ok temp /\
    forward_acc example_loss (zeros 2 2 [0%nat]) (zeros 2 2 [1%nat]) 0
    = Ok acc /\
    forall i j v, In (i, j, v) (terms acc) ->
      v = cross_entropy_batchmean
            (rows (log_softmax
                     (student_block example_loss (zeros 2 2 [0%nat]) 1 i)))
            (rows (teacher_block temp (zeros 2 2 [1%nat]) 1 j))
          - entropy_batchmean
              (rows (teacher_block temp (zeros 2 2 [1%nat]) 1 j)).
Proof.
  assert (Hvalid : valid_shapes example_loss (zeros 2 2 [0%nat])
                                (zeros 2 2 [1%nat]) 0 1)
    by (constructor; simpl; try lia; try reflexivity; repeat constructor).
  split; [exact Hvalid |].
  apply (forward_terms_are_cross_entropy_less_entropy
           example_loss (zeros 2 2 [0%nat]) (zeros 2 2 [1%nat]) 0 1 Hvalid).
Defined.

(** ** The last epoch *)

(** X13.  The last epoch runs at the final temperature, read as
    [schedule[n_epochs - 1]] or as [schedule[-1]], unless the whole
    schedule is a single warm-up epoch ([w = n_epochs = 1]), whose only
    entry is the warm-up temperature. *)
Theorem schedule_last_entry
  (w E n : Z) (a b T : R) (self : DistillLoss) :
  init w E n a b T = Ok self ->
  (1 <= E)%Z ->
  (~ (w = 1 /\ E = 1)%Z ->
   Np.getitem (teacher_temp_schedule self) (E - 1) = Ok b /\
   Np.getitem (teacher_temp_schedule self) (-1) = Ok b) /\
  ((w = 1 /\ E = 1)%Z ->
   Np.getitem (teacher_temp_schedule self) (E - 1) = Ok a /\
   Np.getitem (teacher_temp_schedule self) (-1) = Ok a).
Proof.
  intros Hinit HE.
  destruct (init_Ok_range w E n a b T self Hinit) as [HwE Hlen].
  destruct (getitem_in_range (teacher_temp_schedule self) (E - 1))
    as [v [Hget Hnth]]; [lia |].
  destruct (getitem_negative (teacher_temp_schedule self) (-1))
    as [v' [Hget' Hnth']]; [lia |].
  assert (Hsame : v' = v).
  { replace (Z.to_nat (-1 + Z.of_nat (length (teacher_temp_schedule self))))
      with (Z.to_nat (E - 1)) in Hnth' by lia.
    congruence. }
  subst v'. rewrite Hget, Hget'.
  destruct (schedule_entry w E n a b T self _ v Hinit Hnth)
    as [_ [_ [[Hlt Hv] | [Hge Hv]]]].
  - assert (Hw : w = E) by lia. subst w.
    rewrite INR_IZR_INZ, Z2Nat.id in Hv by lia.
    split.
    + intros Hnot.
      assert (Hd : IZR (E - 1) <> 0) by (apply not_0_IZR; lia).
      assert (Hb : v = b) by (rewrite Hv; field; exact Hd).
      rewrite Hb. split; reflexivity.
    + intros [_ ->]. simpl in Hv.
      assert (Ha : v = a) by (rewrite Hv; lra).
      rewrite Ha. split; reflexivity.
  - subst v. split; [intros _; split; reflexivity | intros [H1 H2]; lia].
Qed.

(** Witness of X13: the two-epoch example ends at 0.04. *)
Lemma schedule_last_entry_witness :
  init 2 2 2 (7 / 100) (4 / 100) (1 / 10) = Ok example_loss /\
  (1 <= 2)%Z /\ ~ (2 = 1 /\ 2 = 1)%Z /\
  Np.getitem (teacher_temp_schedule example_loss) (2 - 1) = Ok (4 / 100) /\
  Np.getitem (teacher_temp_schedule example_loss) (-1) = Ok (4 / 100).
Proof.
  assert (Hinit : init 2 2 2 (7 / 100) (4 / 100) (1 / 10) = Ok example_loss).
  { run_model.
    destruct (Req_dec_T _ 0); unfold example_loss; do 3 f_equal; simpl; lra. }
  assert (HE : (1 <= 2)%Z) by lia.
  assert (Hnot : ~ (2 = 1 /\ 2 = 1)%Z) by lia.
  split; [exact Hinit | split; [exact HE | split; [exact Hnot |]]].
  apply (proj1 (schedule_last_entry 2 2 2 (7 / 100) (4 / 100) (1 / 10)
                  example_loss Hinit HE) Hnot).
Defined.

(** ** The exceptions [forward] raises *)

Section Exceptions.

(** A loop that raises was raised in by one of its iterations. *)
Lemma fold_result_Raise_inv {A X : Type} (body : X -> A -> result A)
  (l : list X) (a : A) (e : exn) :
  fold_left (fun st x => b <- st ;; body x b) l (Ok a) = Raise e ->
  exists x b, In x l /\ body x b = Raise e.
Proof.
  revert a. induction l as [| x l IH]; intros a H; simpl in H;
    [discriminate H |].
  destruct (body x a) as [b | e'] eqn:Hb.
  - destruct (IH b H) as [y [c [Hy Hc]]].
    exists y, c. split; [right; exact Hy | exact Hc].
  - rewrite fold_result_Raise in H. injection H as <-.
    exists x, a. split; [left; reflexivity | exact Hb].
Qed.

Lemma chunk_Raise (t : Tensor) (chunks : Z) (e : exn) :
  chunk t chunks = Raise e -> e = RuntimeError /\ (chunks <= 0)%Z.
Proof.
  intros H. destruct (Z.leb_spec chunks 0) as [Hle | Hgt].
  - unfold chunk in H.
    destruct (Z.leb_spec chunks 0); [| lia].
    injection H as <-. split; [reflexivity | exact Hle].
  - destruct (chunk_Ok t chunks) as [blocks [Hchunk _]]; [lia |].
    rewrite Hchunk in H. discriminate H.
Qed.

Lemma loop_body_Raise (so to : list Tensor) (i j : nat) (acc : Acc)
  (e : exn) :
  loop_body so to i j acc = Raise e -> e = IndexError \/ e = RuntimeError.
Proof.
  unfold loop_body, tuple_getitem.
  destruct (i =? j)%nat; [discriminate |].
  destruct (nth_error so i) as [s_i |];
    [| intros H; injection H as <-; left; reflexivity].
  destruct (nth_error to j) as [t_j |];
    [| intros H; injection H as <-; left; reflexivity].
  simpl. unfold kl_div, broadcast_dim.
  repeat match goal with
         | |- context [(?x =? ?y)%nat] => destruct (x =? y)%nat
         end; simpl; intros H; try discriminate H;
    injection H as <-; right; reflexivity.
Qed.

End Exceptions.

(** X14.  Every failure of [forward] is a [RuntimeError] (no positive
    number of crops, or blocks that do not broadcast), an [IndexError] (the
    epoch, or a missing block) or a [ZeroDivisionError] (no term was
    added); it never raises [ValueError]. *)
Theorem forward_raises_only
  (self : DistillLoss) (s t : Tensor) (epoch : Z) (e : exn) :
  forward self s t epoch = Raise e ->
  e = RuntimeError \/ e = IndexError \/ e = ZeroDivisionError.
Proof.
  unfold forward. intros H.
  destruct (forward_acc self s t epoch) as [acc | e'] eqn:Hacc; simpl in H.
  - unfold true_div in H. destruct (n_terms acc =? 0)%Z; [| discriminate H].
    injection H as <-. right. right. reflexivity.
  - injection H as <-. unfold forward_acc in Hacc.
    destruct (chunk (div_scalar s (student_temp self)) (n_crops self))
      as [so | e1] eqn:Hso; simpl in Hacc.
    2: { injection Hacc as <-. left. apply (chunk_Raise _ _ _ Hso). }
    destruct (Np.getitem (teacher_temp_schedule self) epoch)
      as [temp | e2] eqn:Hget; simpl in Hacc.
    2: { injection Hacc as <-. right. left.
         unfold Np.getitem in Hget.
         destruct (_ || _)%bool; [congruence |].
         destruct (nth_error _ _); [discriminate Hget | congruence]. }
    destruct (chunk (detach (softmax (div_scalar t temp))) (n_crops self))
      as [to | e3] eqn:Hto; simpl in Hacc.
    2: { injection Hacc as <-. left. apply (chunk_Raise _ _ _ Hto). }
    unfold outer_loop in Hacc.
    apply fold_result_Raise_inv in Hacc.
    destruct Hacc as [i [b [_ Hinner]]]. unfold inner_loop in Hinner.
    apply fold_result_Raise_inv in Hinner.
    destruct Hinner as [j [c [_ Hbody]]].
    destruct (loop_body_Raise _ _ _ _ _ _ Hbody) as [-> | ->]; tauto.
Qed.

(** Witness of X14: the single-crop example raises [ZeroDivisionError]. *)
Lemma forward_raises_only_witness :
  forward example_single_crop (zeros 2 2 [0%nat]) (zeros 2 2 [1%nat]) 1
  = Raise ZeroDivisionError /\
  (ZeroDivisionError = RuntimeError \/ ZeroDivisionError = IndexError
   \/ ZeroDivisionError = ZeroDivisionError).
Proof.
  assert (H : forward example_single_crop (zeros 2 2 [0%nat])
                      (zeros 2 2 [1%nat]) 1 = Raise ZeroDivisionError)
    by (run_model; reflexivity).
  split; [exact H |].
  apply (forward_raises_only _ _ _ _ _ H).
Defined.
